(** * lexluthor: session acquisition and connection supervision

    A shallow embedding of [src/main.js]: the credential store on the local
    file system, the session provider ([getAuthState]) with its retry loop
    against the session manager, the connection supervisor ([startBot] and its
    [connection.update] handler) and the inbound message handler.

    The JavaScript is effectful; it is embedded in a small monad that threads
    the mutable state of the process (session directory, module-level
    variables [sock] and [isFirstConnect], pending timers, an effect trace),
    reads the parts of the outside world the code cannot control from an
    environment, and distinguishes a returned value, a thrown exception and a
    promise that is still pending when the fuel of the model runs out. *)

From Stdlib Require Import ZArith String Ascii List Bool Lia.
From stdpp Require Import base gmap strings pretty list.
Import ListNotations.

Local Open Scope string_scope.
Local Open Scope list_scope.

(** ** settings.js

    The module only exports constants; it is not part of the sources at hand,
    so the constants are the fields of a record the development is
    parametrised by.  The toggles are the booleans main.js tests them as,
    the intervals are milliseconds. *)

Record Settings : Type := {
  SESSION_MANAGER_URL : string;
  SESSION_ID : string;
  BOT_NAME : string;
  BOT_VERSION : string;
  PREFIX : string;
  OWNER_NUMBER : string;
  AUTO_READ : bool;
  AUTO_TYPING : bool;
  REPLY_IN_DM_ONLY : bool;
  OWNER_ONLY : bool;
  RECONNECT_INTERVAL : Z;
  KEEP_ALIVE_INTERVAL : Z;
  SESSION_RETRY_INTERVAL : Z
}.

(** ** JavaScript values and string operations used by main.js *)

Module JS.

(** The value of [data.files] in the manager's answer.  A session file set
    is an object from file name to string content, kept as the list
    [Object.entries] enumerates; the scalar cases are what a manager
    answering with another shape can put there. *)
Inductive FilesVal : Type :=
| FUndefined
| FNull
| FBool (b : bool)
| FNum (n : Z)
| FStr (s : string)
| FObj (entries : list (string * string)).

(** ToBoolean: what [!files] and [while (!files)] test. *)
Definition truthy (v : FilesVal) : bool :=
  match v with
  | FUndefined | FNull => false
  | FBool b => b
  | FNum n => negb (n =? 0)%Z
  | FStr s => negb (String.eqb s "")
  | FObj _ => true
  end.

Fixpoint chars_from (i : nat) (s : string) : list (string * string) :=
  match s with
  | EmptyString => []
  | String c s' => (pretty i, String c EmptyString) :: chars_from (S i) s'
  end.

(** [Object.entries(v)]: [None] stands for the TypeError on undefined and
    null; booleans and numbers have no own enumerable properties; a string
    has its characters, keyed by index. *)
Definition Object_entries (v : FilesVal) : option (list (string * string)) :=
  match v with
  | FUndefined | FNull => None
  | FBool _ | FNum _ => Some []
  | FStr s => Some (chars_from 0 s)
  | FObj es => Some es
  end.

(** [a || b] on a possibly absent string: the empty string is falsy. *)
Definition or_else (a : option string) (b : option string) : option string :=
  match a with
  | Some s => if String.eqb s "" then b else Some s
  | None => b
  end.

Definition or_default (a : option string) (d : string) : string :=
  match a with
  | Some s => if String.eqb s "" then d else s
  | None => d
  end.

Fixpoint drop_chars (n : nat) (s : string) : string :=
  match n, s with
  | O, _ => s
  | S n', String _ s' => drop_chars n' s'
  | S _, EmptyString => EmptyString
  end.

(** [s.startsWith(p)] *)
Definition startsWith (s p : string) : bool := String.prefix p s.

(** [s.endsWith(p)] *)
Definition endsWith (s p : string) : bool :=
  (String.length p <=? String.length s)%nat
  && String.eqb (drop_chars (String.length s - String.length p) s) p.

(** [s.slice(n)] for [0 <= n] *)
Definition slice_from (n : nat) (s : string) : string := drop_chars n s.

(** [s.replace(pat, '')] with a string pattern: the first occurrence only. *)
Fixpoint remove_first (pat s : string) : string :=
  if String.prefix pat s then drop_chars (String.length pat) s
  else match s with
       | EmptyString => EmptyString
       | String c s' => String c (remove_first pat s')
       end.

(** White space as [trim] and the class [\s] see it, on the ASCII range. *)
Definition is_space (c : ascii) : bool :=
  let n := nat_of_ascii c in
  ((9 <=? n) && (n <=? 13) || (n =? 32))%nat.

Fixpoint trim_start (s : string) : string :=
  match s with
  | String c s' => if is_space c then trim_start s' else s
  | EmptyString => EmptyString
  end.

(** The characters up to the first white space: after [trim()], the first
    element of [split(/\s+/)], which is what [args.shift()] takes.  (The
    split of the empty string is the one-element array of the empty
    string, so the shift is always defined.) *)
Fixpoint first_word (s : string) : string :=
  match s with
  | String c s' => if is_space c then EmptyString else String c (first_word s')
  | EmptyString => EmptyString
  end.

Definition lower_char (c : ascii) : ascii :=
  let n := nat_of_ascii c in
  if ((65 <=? n) && (n <=? 90))%nat then ascii_of_nat (n + 32) else c.

(** [s.toLowerCase()], on the ASCII range. *)
Fixpoint toLowerCase (s : string) : string :=
  match s with
  | String c s' => String (lower_char c) (toLowerCase s')
  | EmptyString => EmptyString
  end.

End JS.

Import JS.

(** ** The library's enumeration of disconnect reasons

    [DisconnectReason] is imported from the messaging library; the two
    members main.js compares against have these values there. *)

Module DisconnectReason.
Definition loggedOut : Z := 401.
Definition restartRequired : Z := 515.
End DisconnectReason.

(** ** Messages and connection updates, as the library delivers them *)

Record MessageKey : Type := {
  remoteJid : option string;
  fromMe : bool;
  participant : option string;
  senderPn : option string;
  keyId : string
}.

Record MessageContent : Type := {
  conversation : option string;
  extendedTextMessage_text : option string;
  imageMessage_caption : option string;
  videoMessage_caption : option string
}.

Record WAMessage : Type := {
  key : MessageKey;
  message : option MessageContent;
  pushName : option string
}.

Inductive Connection : Type := connecting | open | close.

(** [statusCode] is [lastDisconnect?.error?.output?.statusCode] and
    [errorMessage] is [lastDisconnect?.error?.message]. *)
Record ConnectionUpdate : Type := {
  connection : option Connection;
  statusCode : option Z;
  errorMessage : option string
}.

(** ** Exceptions, log lines and observable effects *)

Inductive JsError : Type :=
| AxiosError (msg : string)
| TypeError
| FsError (path : string)
| CorruptState
| OutboundError.

Inductive ChatKind : Type := Group | Channel | DM.

Inductive LogLine : Type :=
| LFetching (id : string)
| LFetchFailed (e : JsError)
| LSaved
| LSaveFailed (e : JsError)
| LUsingLocal
| LRetrying (ms : Z)
| LConnected
| LDisconnected (reason : string) (code : option Z)
| LLoggedOut
| LReconnecting (ms : Z)
| LIncoming (kind : ChatKind) (name number body jid : string) (owner : bool)
| LUncaught (e : JsError)
| LStarting.

(** The texts main.js sends. *)
Inductive Text : Type :=
| ConnectedNotice
| Pong
| AliveInfo.

Inductive Event : Type :=
| EvLog (l : LogLine)
| EvError (l : LogLine)
| EvGet (url : string)
| EvSleep (ms : Z)
| EvMkdir
| EvWrite (filename content : string)
| EvRm
| EvLoad
| EvVersion
| EvSocket (h : nat)
| EvSetTimeout (ms : Z)
| EvSendMessage (h : nat) (jid : string) (text : Text) (quoted : option MessageKey)
| EvReadMessages (h : nat) (k : MessageKey)
| EvPresence (h : nat) (jid : string).

(** ** The outside world *)

(** The answer to one [axios.get]: the request is rejected (network error,
    status outside 2xx), or it resolves with a body whose [files] member is
    the given value ([FUndefined] when the body has no such member), or it
    resolves with the body [null], on which reading [.files] throws. *)
Inductive Response : Type :=
| Rejected (msg : string)
| NullBody
| Body (files : FilesVal).

(** [creds] is the content of creds.json the identity was read from; with no
    such file the library makes up a fresh identity.  The key store of the
    state reads the other files of the directory when asked. *)
Record AuthState : Type := { creds : option string }.

Record Env : Type := {
  (** the manager's answer to the n-th request of the process *)
  manager : nat -> Response;
  (** file names the operating system refuses to write in the session
      directory (no permission, a directory of that name, a missing parent) *)
  denied : gset string;
  (** whether creating the session directory fails *)
  mkdir_fails : bool;
  (** whether [useMultiFileAuthState] accepts a directory of these contents;
      it rejects with [CorruptState] otherwise *)
  loadable : gmap string string -> bool;
  (** whether the library rejects an outbound operation *)
  outbound_rejects : Event -> bool
}.

(** ** The state of the process *)

Record State : Type := {
  (** the session directory AUTH_DIR: absent, or its files by name *)
  dir : option (gmap string string);
  (** requests sent to the manager so far *)
  requests : nat;
  (** [let sock]: the handle most recently made, if any *)
  sock : option nat;
  (** [let isFirstConnect = true] *)
  isFirstConnect : bool;
  (** every socket made so far, by handle, with the auth state its
      [creds.update] subscription closes over; main.js never unsubscribes *)
  sockets : list AuthState;
  (** delays of the pending [setTimeout(() => startBot(), delay)] *)
  timers : list Z;
  trace : list Event
}.

Definition set_dir (d : option (gmap string string)) (s : State) : State :=
  {| dir := d; requests := requests s; sock := sock s;
     isFirstConnect := isFirstConnect s; sockets := sockets s;
     timers := timers s; trace := trace s |}.

Definition set_requests (n : nat) (s : State) : State :=
  {| dir := dir s; requests := n; sock := sock s;
     isFirstConnect := isFirstConnect s; sockets := sockets s;
     timers := timers s; trace := trace s |}.

Definition set_sock (h : option nat) (s : State) : State :=
  {| dir := dir s; requests := requests s; sock := h;
     isFirstConnect := isFirstConnect s; sockets := sockets s;
     timers := timers s; trace := trace s |}.

Definition set_isFirstConnect (b : bool) (s : State) : State :=
  {| dir := dir s; requests := requests s; sock := sock s;
     isFirstConnect := b; sockets := sockets s;
     timers := timers s; trace := trace s |}.

Definition set_sockets (l : list AuthState) (s : State) : State :=
  {| dir := dir s; requests := requests s; sock := sock s;
     isFirstConnect := isFirstConnect s; sockets := l;
     timers := timers s; trace := trace s |}.

Definition set_timers (l : list Z) (s : State) : State :=
  {| dir := dir s; requests := requests s; sock := sock s;
     isFirstConnect := isFirstConnect s; sockets := sockets s;
     timers := l; trace := trace s |}.

Definition emit (e : Event) (s : State) : State :=
  {| dir := dir s; requests := requests s; sock := sock s;
     isFirstConnect := isFirstConnect s; sockets := sockets s;
     timers := timers s; trace := trace s ++ [e] |}.

(** The same state, observed from now on. *)
Definition forget_trace (s : State) : State :=
  {| dir := dir s; requests := requests s; sock := sock s;
     isFirstConnect := isFirstConnect s; sockets := sockets s;
     timers := timers s; trace := [] |}.

(** The process as [node main.js] finds it: no socket, the flag set, nothing
    scheduled; only the session directory varies. *)
Definition initial (d : option (gmap string string)) : State :=
  {| dir := d; requests := 0; sock := None; isFirstConnect := true;
     sockets := []; timers := []; trace := [] |}.

(** ** The monad *)

Inductive Outcome (A : Type) : Type :=
| Ret (a : A)
| Throw (e : JsError)
| Pending.

Arguments Ret {A} a.
Arguments Throw {A} e.
Arguments Pending {A}.

Definition M (A : Type) : Type := State -> Outcome A * State.

Definition ret {A} (a : A) : M A := fun s => (Ret a, s).

Definition throw {A} (e : JsError) : M A := fun s => (Throw e, s).

Definition pending {A} : M A := fun s => (Pending, s).

Definition bind {A B} (m : M A) (k : A -> M B) : M B :=
  fun s =>
    match m s with
    | (Ret a, s') => k a s'
    | (Throw e, s') => (Throw e, s')
    | (Pending, s') => (Pending, s')
    end.

(** [try { m } catch (error) { h error }] *)
Definition try_catch {A} (m : M A) (h : JsError -> M A) : M A :=
  fun s =>
    match m s with
    | (Throw e, s') => h e s'
    | r => r
    end.

Definition gets {A} (f : State -> A) : M A := fun s => (Ret (f s), s).

Definition modify (f : State -> State) : M unit := fun s => (Ret tt, f s).

Definition when (b : bool) (m : M unit) : M unit := if b then m else ret tt.

Declare Scope js_scope.
Delimit Scope js_scope with js.
Notation "x <- m ;; k" := (bind m (fun x => k))
  (at level 100, m at next level, right associativity) : js_scope.
Notation "m ;; k" := (bind m (fun _ => k))
  (at level 100, right associativity) : js_scope.
Local Open Scope js_scope.

Definition console_log (l : LogLine) : M unit := modify (emit (EvLog l)).
Definition console_error (l : LogLine) : M unit := modify (emit (EvError l)).

Section Program.

Variable cfg : Settings.
Variable env : Env.

(** ** Credential store: the session directory

    [AUTH_DIR] is the only directory main.js touches.  A file name stands
    for the path [path.join(AUTH_DIR, filename)]: distinct names are distinct
    files of the directory, and whether the system takes a name at all (it
    does not take the empty name, a name with a missing parent, a name it
    has no permission for) is what [denied] says.  Contents are strings,
    written and read back as they are.  Removing the directory succeeds. *)

Definition AUTH_DIR : string := "./bot_session/" ++ SESSION_ID cfg.

(** [fs.existsSync(AUTH_DIR)] *)
Definition fs_existsSync_dir : M bool :=
  gets (fun s => match dir s with Some _ => true | None => false end).

(** [fs.existsSync(path.join(AUTH_DIR, filename))] *)
Definition fs_existsSync_file (filename : string) : M bool :=
  gets (fun s =>
          match dir s with
          | Some m => match m !! filename with Some _ => true | None => false end
          | None => false
          end).

(** [fs.mkdirSync(AUTH_DIR, { recursive: true })] *)
Definition fs_mkdirSync : M unit :=
  modify (emit EvMkdir);;
  if mkdir_fails env then throw (FsError AUTH_DIR)
  else modify (fun s => match dir s with
                        | Some _ => s
                        | None => set_dir (Some ∅) s
                        end).

(** [fs.writeFileSync(path.join(AUTH_DIR, filename), content, 'utf-8')]:
    the file is created or replaced, unless the directory is missing or
    the system refuses the name. *)
Definition fs_writeFileSync (filename content : string) : M unit :=
  modify (emit (EvWrite filename content));;
  d <- gets dir;;
  match d with
  | None => throw (FsError filename)
  | Some m =>
      if bool_decide (filename ∈ denied env) then throw (FsError filename)
      else modify (set_dir (Some (<[filename := content]> m)))
  end.

(** [fs.rmSync(AUTH_DIR, { recursive: true, force: true })] *)
Definition fs_rmSync : M unit :=
  modify (emit EvRm);; modify (set_dir None).

(** ** Session manager *)

Definition session_url : string :=
  SESSION_MANAGER_URL cfg ++ "/api/session/" ++ SESSION_ID cfg ++ "/auth".

(** [const { data } = await axios.get(url); data.files] *)
Definition axios_get_files (url : string) : M FilesVal :=
  n <- gets requests;;
  modify (fun s => emit (EvGet url) (set_requests (S n) s));;
  match manager env n with
  | Rejected msg => throw (AxiosError msg)
  | NullBody => throw TypeError
  | Body files => ret files
  end.

Definition fetchSessionFromManager : M FilesVal :=
  try_catch
    (console_log (LFetching (SESSION_ID cfg));;
     axios_get_files session_url)
    (fun error => console_error (LFetchFailed error);; ret FNull).

(** The [for ... of Object.entries(files)] loop of [saveSessionLocally]. *)
Fixpoint write_entries (entries : list (string * string)) : M unit :=
  match entries with
  | [] => ret tt
  | (filename, content) :: rest =>
      fs_writeFileSync filename content;; write_entries rest
  end.

Definition saveSessionLocally (files : FilesVal) : M unit :=
  try_catch
    (there <- fs_existsSync_dir;;
     when (negb there) fs_mkdirSync;;
     match Object_entries files with
     | None => throw TypeError
     | Some entries => write_entries entries
     end;;
     console_log LSaved)
    (fun error => console_error (LSaveFailed error)).

Definition hasLocalSession : M bool := fs_existsSync_file "creds.json".

(** [useMultiFileAuthState(AUTH_DIR)], of the messaging library: it makes
    the directory when there is none, reads the identity from creds.json,
    and hands back a state whose keys live in the directory. *)
Definition useMultiFileAuthState : M AuthState :=
  modify (emit EvLoad);;
  d <- gets dir;;
  let m := default ∅ d in
  if loadable env m then
    modify (set_dir (Some m));; ret {| creds := m !! "creds.json" |}
  else throw CorruptState.

(** [await new Promise(r => setTimeout(r, ms))] *)
Definition sleep (ms : Z) : M unit := modify (emit (EvSleep ms)).

(** The [while (!files)] loop of [getAuthState]; [fuel] bounds the number
    of iterations the model follows. *)
Fixpoint retry_while (fuel : nat) (files : FilesVal) {struct fuel} : M FilesVal :=
  if truthy files then ret files
  else match fuel with
       | O => pending
       | S fuel' =>
           console_log (LRetrying (SESSION_RETRY_INTERVAL cfg));;
           sleep (SESSION_RETRY_INTERVAL cfg);;
           files' <- fetchSessionFromManager;;
           retry_while fuel' files'
       end.

(** Lines 49 to 54 of [getAuthState]: the first fetch, then the loop. *)
Definition fetch_until_truthy (fuel : nat) : M FilesVal :=
  files <- fetchSessionFromManager;;
  retry_while fuel files.

Definition getAuthState (fuel : nat) : M AuthState :=
  local <- hasLocalSession;;
  if local then
    console_log LUsingLocal;;
    useMultiFileAuthState
  else
    files <- fetch_until_truthy fuel;;
    saveSessionLocally files;;
    useMultiFileAuthState.

(** ** Outbound operations

    They all go through the module-level [sock], whichever socket the
    running listener was subscribed on. *)

Definition outbound (op : nat -> Event) : M unit :=
  current <- gets sock;;
  match current with
  | None => throw TypeError
  | Some h =>
      modify (emit (op h));;
      if outbound_rejects env (op h) then throw OutboundError else ret tt
  end.

Definition sock_sendMessage (jid : string) (text : Text)
    (quoted : option MessageKey) : M unit :=
  outbound (fun h => EvSendMessage h jid text quoted).

Definition sock_readMessages (k : MessageKey) : M unit :=
  outbound (fun h => EvReadMessages h k).

Definition sock_sendPresenceUpdate (jid : string) : M unit :=
  outbound (fun h => EvPresence h jid).

(** ** Connection supervisor *)

(** [setTimeout(() => startBot(), ms)] *)
Definition setTimeout_startBot (ms : Z) : M unit :=
  modify (fun s => emit (EvSetTimeout ms) (set_timers (timers s ++ [ms]) s)).

(** [statusCode === reason] *)
Definition code_is (code : option Z) (reason : Z) : bool :=
  match code with
  | Some c => (c =? reason)%Z
  | None => false
  end.

Definition is_open (c : option Connection) : bool :=
  match c with Some open => true | _ => false end.

Definition is_close (c : option Connection) : bool :=
  match c with Some close => true | _ => false end.

Definition owner_jid : string := OWNER_NUMBER cfg ++ "@s.whatsapp.net".

(** The [connection.update] listener. *)
Definition on_connection_update (update : ConnectionUpdate) : M unit :=
  when (is_open (connection update))
    (console_log LConnected;;
     first <- gets isFirstConnect;;
     when first
       (modify (set_isFirstConnect false);;
        sock_sendMessage owner_jid ConnectedNotice None));;
  when (is_close (connection update))
    (console_log (LDisconnected (or_default (errorMessage update) "Unknown")
                                (statusCode update));;
     if code_is (statusCode update) DisconnectReason.loggedOut then
       console_log LLoggedOut;;
       there <- fs_existsSync_dir;;
       when there fs_rmSync;;
       modify (set_isFirstConnect true);;
       setTimeout_startBot (RECONNECT_INTERVAL cfg)
     else if code_is (statusCode update) DisconnectReason.restartRequired then
       setTimeout_startBot 3000
     else
       console_log (LReconnecting (RECONNECT_INTERVAL cfg));;
       setTimeout_startBot (RECONNECT_INTERVAL cfg)).

(** [saveCreds], the library's [creds.update] listener: it rewrites
    creds.json in the directory the state was loaded from. *)
Definition saveCreds (content : string) : M unit :=
  fs_writeFileSync "creds.json" content.

(** ** Inbound messages *)

Definition message_body (c : MessageContent) : string :=
  or_default
    (or_else (conversation c)
       (or_else (extendedTextMessage_text c)
          (or_else (imageMessage_caption c) (videoMessage_caption c))))
    "".

Definition sender_number (isGroup : bool) (k : MessageKey) (from : string) : string :=
  let senderJid :=
    if isGroup then or_else (participant k) (senderPn k)
    else or_else (senderPn k) (Some from) in
  or_default
    (option_map (fun jid => remove_first "@lid" (remove_first "@s.whatsapp.net" jid))
                senderJid)
    "Unknown".

Definition chat_kind (isGroup isChannel : bool) : ChatKind :=
  if isGroup then Group else if isChannel then Channel else DM.

(** The [switch (command)]. *)
Definition dispatch (command from : string) (msg : WAMessage) : M unit :=
  if String.eqb command "ping" then
    sock_sendMessage from Pong (Some (key msg))
  else if String.eqb command "alive" then
    sock_sendMessage from AliveInfo (Some (key msg))
  else ret tt.

(** One turn of the [for (const msg of messages)] loop; returning is the
    [continue]. *)
Definition on_message (msg : WAMessage) : M unit :=
  match message msg with
  | None => ret tt
  | Some content =>
      if fromMe (key msg) then ret tt
      else
        match remoteJid (key msg) with
        | None => throw TypeError
        | Some from =>
            let isGroup := endsWith from "@g.us" in
            let isChannel := endsWith from "@newsletter" in
            let senderNumber := sender_number isGroup (key msg) from in
            let senderName := or_default (pushName msg) "Unknown" in
            let isOwner := String.eqb senderNumber (OWNER_NUMBER cfg) in
            let body := message_body content in
            console_log (LIncoming (chat_kind isGroup isChannel) senderName
                           senderNumber (or_default (Some body) "[media/no text]")
                           from isOwner);;
            when (AUTO_READ cfg) (sock_readMessages (key msg));;
            when (AUTO_TYPING cfg && startsWith body (PREFIX cfg))
              (sock_sendPresenceUpdate from);;
            if negb (startsWith body (PREFIX cfg)) then ret tt
            else
              let args := trim_start (slice_from (String.length (PREFIX cfg)) body) in
              let command := toLowerCase (first_word args) in
              dispatch command from msg
        end
  end.

Fixpoint for_each_message (messages : list WAMessage) : M unit :=
  match messages with
  | [] => ret tt
  | msg :: rest => on_message msg;; for_each_message rest
  end.

(** The [messages.upsert] listener. *)
Definition on_messages_upsert (type : string) (messages : list WAMessage) : M unit :=
  if negb (String.eqb type "notify") then ret tt
  else for_each_message messages.

(** ** startBot *)

(** [fetchLatestBaileysVersion()] answers with the bundled version when
    the lookup fails; it does not reject. *)
Definition fetchLatestBaileysVersion : M unit := modify (emit EvVersion).

(** [makeWASocket({...})]: a new handle, the next free one. *)
Definition makeWASocket (state : AuthState) : M nat :=
  h <- gets (fun s => length (sockets s));;
  modify (fun s => emit (EvSocket h) (set_sockets (sockets s ++ [state]) s));;
  ret h.

(** The three [sock.ev.on] calls subscribe the listeners on the socket
    just made: a socket in [sockets] is a socket with listeners. *)
Definition startBot (fuel : nat) : M unit :=
  state <- getAuthState fuel;;
  fetchLatestBaileysVersion;;
  h <- makeWASocket state;;
  modify (set_sock (Some h)).

(** ** The event loop *)

(** What a socket can emit towards main.js. *)
Inductive Emitted : Type :=
| ConnectionUpdated (update : ConnectionUpdate)
| CredsUpdated (content : string)
| MessagesUpserted (type : string) (messages : list WAMessage).

Definition listener (ev : Emitted) : M unit :=
  match ev with
  | ConnectionUpdated update => on_connection_update update
  | CredsUpdated content => saveCreds content
  | MessagesUpserted type messages => on_messages_upsert type messages
  end.

(** A listener or a timer callback runs to its end before the next event
    is taken (two listeners interleaving at an [await] are outside the
    model); what it throws reaches [process.on('unhandledRejection')], which
    logs and goes on. *)
Definition settle (m : M unit) (s : State) : State :=
  match m s with
  | (Throw e, s') => emit (EvError (LUncaught e)) s'
  | (_, s') => s'
  end.

(** One turn of the event loop: socket [h] emits, or the [i]-th pending
    timer fires. *)
Inductive Step : Type :=
| Emit (h : nat) (ev : Emitted)
| Fire (i : nat).

Definition step (fuel : nat) (st : Step) (s : State) : State :=
  match st with
  | Emit h ev =>
      match sockets s !! h with
      | Some _ => settle (listener ev) s
      | None => s
      end
  | Fire i =>
      match timers s !! i with
      | Some _ => settle (startBot fuel) (set_timers (delete i (timers s)) s)
      | None => s
      end
  end.

Definition run (fuel : nat) (steps : list Step) (s : State) : State :=
  fold_left (fun s st => step fuel st s) steps s.

(** The last two lines of main.js. *)
Definition main (fuel : nat) (s : State) : State :=
  settle (console_log LStarting;; startBot fuel) s.

End Program.

(** ** Observations on states, traces and steps *)

(** What [fetchSessionFromManager] returns for an answer of the manager. *)
Definition answer (r : Response) : FilesVal :=
  match r with
| Body files => files
| Rejected _ | NullBody => FNull
  end.

Definition is_get (e : Event) : bool :=
  match e with EvGet _ => true | _ => false end.

Definition is_sleep (ms : Z) (e : Event) : bool :=
  match e with EvSleep d => (d =? ms)%Z | _ => false end.

(** The startup notification: the only message with this text. *)
Definition is_notice (e : Event) : bool :=
  match e with EvSendMessage _ _ ConnectedNotice _ => true | _ => false end.

Definition count (p : Event -> bool) (tr : list Event) : nat :=
  length (filter (fun e => p e = true) tr).

Definition notices (s : State) : nat := count is_notice (trace s).

(** [sock] is the socket made last, and there is none before the first. *)
Definition linked (s : State) : Prop :=
  match sock s with
| Some h => S h = length (sockets s)
| None => sockets s = []
  end.

(** A step that ends a credential epoch: a disconnect whose cause is
    logged-out. *)
Definition is_logout (update : ConnectionUpdate) : bool :=
  is_close (connection update)
  && code_is (statusCode update) DisconnectReason.loggedOut.

Definition wipes (st : Step) : bool :=
  match st with
| Emit _ (ConnectionUpdated update) => is_logout update
| _ => false
  end.

(** A step in which a socket reports the connection open. *)
Definition opens (st : Step) : bool :=
  match st with
| Emit _ (ConnectionUpdated update) => is_open (connection update)
| _ => false
  end.

(** The messages the loop passes over: no content, or sent by the bot. *)
Definition skipped (msg : WAMessage) : bool :=
  match message msg with
| None => true
| Some _ => fromMe (key msg)
  end.

(** The delay the [connection.update] listener schedules on a close. *)
Definition restart_delay (cfg : Settings) (update : ConnectionUpdate) : Z :=
  if code_is (statusCode update) DisconnectReason.loggedOut then RECONNECT_INTERVAL cfg
  else if code_is (statusCode update) DisconnectReason.restartRequired then 3000%Z
  else RECONNECT_INTERVAL cfg.

(** ** A sample configuration and sample worlds *)

Module Sample.

Definition cfg : Settings := {|
  SESSION_MANAGER_URL := "http://manager.local";
  SESSION_ID := "lex";
  BOT_NAME := "LexLuthor";
  BOT_VERSION := "1.0.0";
  PREFIX := ".";
  OWNER_NUMBER := "15550100";
  AUTO_READ := true;
  AUTO_TYPING := true;
  REPLY_IN_DM_ONLY := false;
  OWNER_ONLY := false;
  RECONNECT_INTERVAL := 5000;
  KEEP_ALIVE_INTERVAL := 30000;
  SESSION_RETRY_INTERVAL := 10000
|}.

(** A world with nothing in the way: only the manager varies. *)
Definition world (m : nat -> Response) : Env := {|
  manager := m;
  denied := ∅;
  mkdir_fails := false;
  loadable := fun _ => true;
  outbound_rejects := fun _ => false
|}.

(** The same, with file names the system refuses. *)
Definition world_denying (m : nat -> Response) (names : gset string) : Env := {|
  manager := m;
  denied := names;
  mkdir_fails := false;
  loadable := fun _ => true;
  outbound_rejects := fun _ => false
|}.

(** The same, with a library that rejects every directory. *)
Definition world_corrupt (m : nat -> Response) : Env := {|
  manager := m;
  denied := ∅;
  mkdir_fails := false;
  loadable := fun _ => false;
  outbound_rejects := fun _ => false
|}.

Definition bundle : list (string * string) :=
  [("creds.json", "{}"); ("pre-key-1.json", "k1")].

(** The manager answers 500 twice, then hands out the bundle. *)
Definition late_manager (n : nat) : Response :=
  match n with
  | 0 | 1 => Rejected "Request failed with status code 500"
  | _ => Body (FObj bundle)
  end.

Definition ready_manager (n : nat) : Response := Body (FObj bundle).

(** The manager answers with an empty file set. *)
Definition empty_manager (n : nat) : Response := Body (FObj []).

Definition opened : ConnectionUpdate :=
  {| connection := Some open; statusCode := None; errorMessage := None |}.

Definition closed (code : Z) : ConnectionUpdate :=
  {| connection := Some close; statusCode := Some code;
     errorMessage := Some "Connection Failure" |}.

Definition stored : gmap string string := list_to_map bundle.

(** A process with one socket open on a stored session. *)
Definition running : State :=
  {| dir := Some stored; requests := 0; sock := Some 0;
     isFirstConnect := false; sockets := [ {| creds := Some "{}" |} ];
     timers := []; trace := [] |}.

(** The process once [node main.js] has fetched the bundle and made its
    first socket. *)
Definition started : State :=
  main cfg (world ready_manager) 0 (initial None).

(** The same after a close with an unclassified code and the restart it
    schedules: a second socket, the first still there. *)
Definition reopened : State :=
  run cfg (world ready_manager) 0
    [Emit 0 (ConnectionUpdated (closed 428)); Fire 0] started.

(** One epoch: open, close, restart, open again on the new socket. *)
Definition reconnecting : list Step :=
  [Emit 0 (ConnectionUpdated opened); Emit 0 (ConnectionUpdated (closed 428));
   Fire 0; Emit 1 (ConnectionUpdated opened)].

Definition ping : WAMessage :=
  {| key := {| remoteJid := Some "15550123@s.whatsapp.net"; fromMe := false;
               participant := None; senderPn := None; keyId := "A1" |};
     message := Some {| conversation := Some ".ping";
                        extendedTextMessage_text := None;
                        imageMessage_caption := None;
                        videoMessage_caption := None |};
     pushName := Some "Lois" |}.

(** The bot's own copy of a message it sent. *)
Definition echo : WAMessage :=
  {| key := {| remoteJid := Some "15550123@s.whatsapp.net"; fromMe := true;
               participant := None; senderPn := None; keyId := "A2" |};
     message := message ping;
     pushName := None |}.

(** A stub without content. *)
Definition stub : WAMessage :=
  {| key := key ping; message := None; pushName := None |}.

(** A picture without caption. *)
Definition picture : WAMessage :=
  {| key := key ping;
     message := Some {| conversation := None;
                        extendedTextMessage_text := None;
                        imageMessage_caption := None;
                        videoMessage_caption := None |};
     pushName := Some "Lois" |}.

(** Two epochs: open, logged out, restart, open on the new socket. *)
Definition relogin : list Step :=
  [Emit 0 (ConnectionUpdated opened); Emit 0 (ConnectionUpdated (closed 401));
   Fire 0; Emit 1 (ConnectionUpdated opened)].

(** A world in which the library rejects every outbound operation. *)
Definition world_offline (m : nat -> Response) : Env := {|
  manager := m;
  denied := ∅;
  mkdir_fails := false;
  loadable := fun _ => true;
  outbound_rejects := fun _ => true
|}.

(** A command with white space after the prefix, in capitals, with more
    after it. *)
Definition shout : WAMessage :=
  {| key := key ping;
     message := Some {| conversation := Some ". PiNg now";
                        extendedTextMessage_text := None;
                        imageMessage_caption := None;
                        videoMessage_caption := None |};
     pushName := Some "Lois" |}.

(** A message whose key names no chat. *)
Definition lost : WAMessage :=
  {| key := {| remoteJid := None; fromMe := false;
               participant := None; senderPn := None; keyId := "A3" |};
     message := message ping;
     pushName := None |}.

End Sample.


(** * Properties *)

Section Properties.

Variable cfg : Settings.
Variable env : Env.

(** ** Expected states and traces *)

(** [n] more requests sent and the events [evs] added; the rest as it was. *)
Definition advance (n : nat) (evs : list Event) (s : State) : State :=
  {| dir := dir s; requests := requests s + n; sock := sock s;
     isFirstConnect := isFirstConnect s; sockets := sockets s;
     timers := timers s; trace := trace s ++ evs |}.

(** The session directory replaced by [d] and the events [evs] added. *)
Definition put (d : option (gmap string string)) (evs : list Event)
    (s : State) : State :=
  advance 0 evs (set_dir d s).

(** What one call of [fetchSessionFromManager] leaves in the trace. *)
Definition fetch_events (r : Response) : list Event :=
  [EvLog (LFetching (SESSION_ID cfg)); EvGet (session_url cfg)]
  ++ match r with
     | Body _ => []
     | Rejected msg => [EvError (LFetchFailed (AxiosError msg))]
     | NullBody => [EvError (LFetchFailed TypeError)]
     end.

(** The answers to requests [n], ..., [n + k - 1] are all falsy. *)
Definition misses (n k : nat) : Prop :=
  forall i, i < k -> truthy (answer (manager env (n + i))) = false.

(** The trace of [k] turns of the loop, the first of which sends request
    [n]: each turn announces the wait, waits the retry interval, and only
    then fetches again. *)
Fixpoint retries (n k : nat) : list Event :=
  match k with
  | O => []
  | S k' =>
      [EvLog (LRetrying (SESSION_RETRY_INTERVAL cfg));
       EvSleep (SESSION_RETRY_INTERVAL cfg)]
      ++ fetch_events (manager env n) ++ retries (S n) k'
  end.

(** The trace of [k] failed attempts and the one that follows them,
    starting with request [n]. *)
Definition attempts (n k : nat) : list Event :=
  fetch_events (manager env n) ++ retries (S n) k.

Definition write_event (e : string * string) : Event := EvWrite e.1 e.2.

(** The directory [m] after the entries were written in order. *)
Definition store_all (entries : list (string * string))
    (m : gmap string string) : gmap string string :=
  fold_left (fun m e => <[e.1 := e.2]> m) entries m.

(** The directory is there, or can be made. *)
Definition directory_ready (s : State) : bool :=
  match dir s with
  | Some _ => true
  | None => negb (mkdir_fails env)
  end.

Definition opening (s : State) : list Event :=
  match dir s with
  | Some _ => []
  | None => [EvMkdir]
  end.

Definition accepted (entries : list (string * string)) : Prop :=
  Forall (fun e => e.1 ∉ denied env) entries.

(** The state in which the bundle fetched after [k] failed attempts has
    been saved, such as it could be. *)
Definition saved (s : State) (k : nat) : State :=
  (saveSessionLocally cfg env (answer (manager env (requests s + k)))
     (advance (S k) (attempts (requests s) k) s)).2.

(** What [useMultiFileAuthState] answers on a directory of contents [m]. *)
Definition load_outcome (m : gmap string string) : Outcome AuthState :=
  if loadable env m then Ret {| creds := m !! "creds.json" |}
  else Throw CorruptState.

(** What a close leaves in the trace. *)
Definition close_events (update : ConnectionUpdate) (s : State) : list Event :=
  EvLog (LDisconnected (or_default (errorMessage update) "Unknown") (statusCode update))
  :: if code_is (statusCode update) DisconnectReason.loggedOut then
       EvLog LLoggedOut
       :: match dir s with Some _ => [EvRm] | None => [] end
       ++ [EvSetTimeout (RECONNECT_INTERVAL cfg)]
     else if code_is (statusCode update) DisconnectReason.restartRequired then
       [EvSetTimeout 3000]
     else
       [EvLog (LReconnecting (RECONNECT_INTERVAL cfg));
        EvSetTimeout (RECONNECT_INTERVAL cfg)].

(** The path of [getAuthState] that asks the manager. *)
Definition acquire_remotely (fuel : nat) : M AuthState :=
  files <- fetch_until_truthy cfg env fuel;;
  saveSessionLocally cfg env files;;
  useMultiFileAuthState env.

(** ** Predicates on computations *)

(** [m] throws only errors in [E], and is left pending only if [P]. *)
Definition safe {A} (E : JsError -> Prop) (P : Prop) (m : M A) : Prop :=
  forall s, match (m s).1 with
            | Ret _ => True
            | Throw e => E e
            | Pending => P
            end.

Definition no_error : JsError -> Prop := fun _ => False.
Definition any_error : JsError -> Prop := fun _ => True.
Definition corrupt_only : JsError -> Prop := fun e => e = CorruptState.

(** What the supervisor owns is as it was, and no startup notification was
    sent: the session provider and the message handler leave states so
    related. *)
Definition frame (s s' : State) : Prop :=
  sock s' = sock s /\ sockets s' = sockets s
  /\ isFirstConnect s' = isFirstConnect s /\ timers s' = timers s
  /\ notices s' = notices s.

(** [frame], and no request was sent either. *)
Definition still (s s' : State) : Prop :=
  frame s s' /\ requests s' = requests s.

(** [m] takes every state to one related to it by [R]. *)
Definition keeps {A} (R : State -> State -> Prop) (m : M A) : Prop :=
  forall s, R s (m s).2.

(** ** Credential epochs *)

(** The startup notification still to be sent in this credential epoch. *)
Definition owed (s : State) : nat := if isFirstConnect s then 1 else 0.

(** No step of the list ends the credential epoch. *)
Definition within_epoch (steps : list Step) : Prop :=
  Forall (fun st => wipes st = false) steps.

(** ** Restarts *)

(** The pending timers after a step: a close reported by a socket with
    listeners adds one, a timer that fires is taken off, nothing else
    touches them. *)
Definition timers_after (st : Step) (s : State) : list Z :=
  match st with
  | Fire i => delete i (timers s)
  | Emit h (ConnectionUpdated update) =>
      match sockets s !! h with
      | Some _ =>
          if is_close (connection update)
          then timers s ++ [restart_delay cfg update]
          else timers s
      | None => timers s
      end
  | Emit _ _ => timers s
  end.

(** The timers are as they were. *)
Definition same_timers (s s' : State) : Prop := timers s' = timers s.

(** A close and the firing of the timer it adds. *)
Definition close_then_restart (h : nat) (update : ConnectionUpdate) (s : State)
    : list Step :=
  [Emit h (ConnectionUpdated update); Fire (length (timers s))].

(** ** Files of the session directory *)

(** The names a file set is saved under. *)
Definition names (files : FilesVal) : list string :=
  (default [] (Object_entries files)).*1.

(** The file of name [f] in the session directory, if there is one. *)
Definition file_at (f : string) (s : State) : option string :=
  default ∅ (dir s) !! f.

(** The file [f] is as it was: there or not, with the same content. *)
Definition same_file (f : string) (s s' : State) : Prop :=
  file_at f s' = file_at f s.

(** No file went away. *)
Definition nothing_lost (s s' : State) : Prop :=
  forall f, is_Some (file_at f s) -> is_Some (file_at f s').


(** ** Commands and their causes *)





(** The message has a content whose text starts with the prefix. *)
Definition prefixed (msg : WAMessage) : Prop :=
  exists content,
    message msg = Some content
    /\ startsWith (message_body content) (PREFIX cfg) = true.

(** What the message listener may do on account of [msg]: log it, mark it
    read when AUTO_READ is on, show typing in its chat when AUTO_TYPING is on
    and its text is prefixed, and answer a prefixed text in its chat,
    quoting it, with one of the two replies. *)
Definition caused_by (msg : WAMessage) (e : Event) : Prop :=
  match e with
  | EvLog (LIncoming _ _ _ _ _ _) => True
  | EvReadMessages _ k => AUTO_READ cfg = true /\ k = key msg
  | EvPresence _ jid =>
      AUTO_TYPING cfg = true /\ remoteJid (key msg) = Some jid /\ prefixed msg
  | EvSendMessage _ jid text quoted =>
      remoteJid (key msg) = Some jid /\ quoted = Some (key msg)
      /\ (text = Pong \/ text = AliveInfo) /\ prefixed msg
  | _ => False
  end.

(** The trace grew by events that all satisfy [P]; it lost none. *)
Definition adds (P : Event -> Prop) (s s' : State) : Prop :=
  exists evs, trace s' = trace s ++ evs /\ Forall P evs.

(** No at sign in the string. *)
Fixpoint no_at (s : string) : bool :=
  match s with
  | EmptyString => true
  | String c s' => negb (Ascii.eqb c "@") && no_at s'
  end.

(** The steps that can change a file of the session directory: a timer
    that fires (its [startBot] may save a bundle), a credentials update, a
    logged-out close. *)
Definition touches_files (st : Step) : bool :=
  match st with
  | Fire _ => true
  | Emit _ (CredsUpdated _) => true
  | Emit _ (ConnectionUpdated update) => is_logout update
  | Emit _ (MessagesUpserted _ _) => false
  end.

(** ** Tactics and basic facts *)

Lemma state_eq (s1 s2 : State) :
  dir s1 = dir s2 -> requests s1 = requests s2 -> sock s1 = sock s2 ->
  isFirstConnect s1 = isFirstConnect s2 -> sockets s1 = sockets s2 ->
  timers s1 = timers s2 -> trace s1 = trace s2 -> s1 = s2.
Proof. destruct s1, s2; simpl; intros; subst; reflexivity. Qed.

Ltac same_state :=
  apply state_eq; simpl;
  rewrite <- ?app_assoc, ?app_nil_r; simpl;
  first [ reflexivity | lia | congruence ].

Lemma advance_advance n1 n2 evs1 evs2 s :
  advance n2 evs2 (advance n1 evs1 s) = advance (n1 + n2) (evs1 ++ evs2) s.
Proof. apply state_eq; simpl; try reflexivity; [lia | now rewrite app_assoc]. Qed.

Lemma emit_advance e s : emit e s = advance 0 [e] s.
Proof. apply state_eq; simpl; try reflexivity; lia. Qed.

Lemma advance_nothing s : advance 0 [] s = s.
Proof. apply state_eq; simpl; try reflexivity; [lia | apply app_nil_r]. Qed.

Lemma count_app p (l1 l2 : list Event) : count p (l1 ++ l2) = count p l1 + count p l2.
Proof. unfold count. now rewrite filter_app, length_app. Qed.

Lemma count_cons p e (l : list Event) :
  count p (e :: l) = (if p e then 1 else 0) + count p l.
Proof.
  unfold count. rewrite filter_cons.
  destruct (p e); destruct (decide _); simpl; congruence.
Qed.

(** ** One fetch *)

Lemma fetch_exact s :
  fetchSessionFromManager cfg env s
  = (Ret (answer (manager env (requests s))),
     advance 1 (fetch_events (manager env (requests s))) s).
Proof.
  unfold fetchSessionFromManager, axios_get_files, console_log, console_error,
    try_catch, bind, ret, throw, gets, modify; simpl.
  destruct (manager env (requests s)); simpl; f_equal;
    apply state_eq; simpl; try reflexivity; try lia;
    rewrite <- ?app_assoc; reflexivity.
Qed.

(** ** The retry loop *)

Lemma retry_while_truthy fuel v s :
  truthy v = true -> retry_while cfg env fuel v s = (Ret v, s).
Proof. intros Hv. destruct fuel; simpl; rewrite Hv; reflexivity. Qed.

Lemma retry_while_turn fuel v s :
  truthy v = false ->
  retry_while cfg env (S fuel) v s
  = retry_while cfg env fuel (answer (manager env (requests s)))
      (advance 1 (retries (requests s) 1) s).
Proof.
  intros Hv. simpl. rewrite Hv.
  unfold console_log, sleep, bind, modify; simpl.
  rewrite fetch_exact; simpl.
  rewrite !emit_advance, !advance_advance; simpl.
  now rewrite app_nil_r.
Qed.

Lemma misses_tail n k : misses n (S k) -> misses (S n) k.
Proof.
  intros H i Hi. specialize (H (S i)).
  replace (S n + i) with (n + S i) by lia. apply H. lia.
Qed.

Lemma retries_S n k :
  retries n (S k) = retries n 1 ++ retries (S n) k.
Proof. cbn [retries]. now rewrite app_nil_r, <- !app_assoc. Qed.

Lemma retry_while_hit k : forall fuel v s,
  k < fuel -> truthy v = false -> misses (requests s) k ->
  truthy (answer (manager env (requests s + k))) = true ->
  retry_while cfg env fuel v s
  = (Ret (answer (manager env (requests s + k))),
     advance (S k) (retries (requests s) (S k)) s).
Proof.
  induction k as [|k IH]; intros fuel v s Hfuel Hv Hmiss Hhit;
    (destruct fuel as [|fuel]; [lia|]); rewrite retry_while_turn by assumption.
  - rewrite Nat.add_0_r in Hhit. rewrite retry_while_truthy by assumption.
    now rewrite Nat.add_0_r.
  - assert (H0 : truthy (answer (manager env (requests s))) = false).
    { specialize (Hmiss 0). rewrite Nat.add_0_r in Hmiss. apply Hmiss. lia. }
    rewrite (IH fuel _ (advance 1 (retries (requests s) 1) s)); simpl requests.
    + rewrite advance_advance.
      replace (requests s + 1 + k) with (requests s + S k) by lia.
      replace (requests s + 1) with (S (requests s)) by lia.
      now rewrite <- (retries_S (requests s) (S k)).
    + lia.
    + assumption.
    + replace (requests s + 1) with (S (requests s)) by lia.
      now apply misses_tail.
    + replace (requests s + 1 + k) with (requests s + S k) by lia. assumption.
Qed.

Lemma retry_while_pending fuel : forall v s,
  truthy v = false -> misses (requests s) fuel ->
  retry_while cfg env fuel v s
  = (Pending, advance fuel (retries (requests s) fuel) s).
Proof.
  induction fuel as [|fuel IH]; intros v s Hv Hmiss.
  - simpl. rewrite Hv. unfold pending. now rewrite advance_nothing.
  - rewrite retry_while_turn by assumption.
    rewrite IH; simpl requests.
    + rewrite advance_advance.
      replace (requests s + 1) with (S (requests s)) by lia.
      now rewrite <- (retries_S (requests s) fuel).
    + specialize (Hmiss 0). rewrite Nat.add_0_r in Hmiss. apply Hmiss. lia.
    + replace (requests s + 1) with (S (requests s)) by lia.
      now apply misses_tail.
Qed.

Lemma retry_while_settles fuel : forall v s o s',
  retry_while cfg env fuel v s = (o, s') ->
  (o = Pending \/ exists v', o = Ret v' /\ truthy v' = true).
Proof.
  induction fuel as [|fuel IH]; intros v s o s' H.
  - simpl in H. destruct (truthy v) eqn:Hv; inversion H; subst; eauto.
  - destruct (truthy v) eqn:Hv.
    + rewrite retry_while_truthy in H by assumption. inversion H; subst; eauto.
    + rewrite retry_while_turn in H by assumption. eapply IH, H.
Qed.

(** ** Saving a file set *)

Lemma put_put d1 d2 evs1 evs2 s :
  put d2 evs2 (put d1 evs1 s) = put d2 (evs1 ++ evs2) s.
Proof. apply state_eq; simpl; try reflexivity; [lia | now rewrite app_assoc]. Qed.

Lemma write_entries_accepted entries : forall s m,
  dir s = Some m -> accepted entries ->
  write_entries env entries s
  = (Ret tt, put (Some (store_all entries m)) (map write_event entries) s).
Proof.
  induction entries as [|[f c] rest IH]; intros s m Hdir Hok.
  - simpl. unfold ret. f_equal. same_state.
  - inversion Hok as [|? ? Hf Hrest]; subst. simpl in Hf.
    simpl. unfold fs_writeFileSync, bind, modify, gets; simpl.
    rewrite Hdir, bool_decide_eq_false_2 by assumption.
    rewrite (IH _ (<[f:=c]> m)) by (simpl; auto).
    f_equal. same_state.
Qed.

Lemma write_entries_refused before : forall f c after s m,
  dir s = Some m -> accepted before -> f ∈ denied env ->
  write_entries env (before ++ (f, c) :: after) s
  = (Throw (FsError f),
     put (Some (store_all before m)) (map write_event (before ++ [(f, c)])) s).
Proof.
  induction before as [|[f0 c0] rest IH]; intros f c after s m Hdir Hok Hf.
  - simpl. unfold fs_writeFileSync, bind, modify, gets, throw; simpl.
    rewrite Hdir, bool_decide_eq_true_2 by assumption.
    f_equal. same_state.
  - inversion Hok as [|? ? Hf0 Hrest]; subst. simpl in Hf0.
    simpl. unfold fs_writeFileSync, bind, modify, gets; simpl.
    rewrite Hdir, bool_decide_eq_false_2 by assumption.
    rewrite (IH f c after _ (<[f0:=c0]> m)) by (simpl; auto).
    f_equal. same_state.
Qed.

(** [saveSessionLocally] up to the loop: the directory is there. *)
Lemma save_opening {A} (k : M A) s :
  directory_ready s = true ->
  (there <- fs_existsSync_dir;; when (negb there) (fs_mkdirSync cfg env);; k) s
  = k (put (Some (default ∅ (dir s))) (opening s) s).
Proof.
  unfold directory_ready, opening, fs_existsSync_dir, fs_mkdirSync, when, bind,
    gets, modify, ret, throw.
  destruct (dir s) eqn:Hdir; simpl.
  - intros _. f_equal. same_state.
  - intros Hmk. apply negb_true_iff in Hmk. rewrite Hmk; simpl. rewrite ?Hdir.
    f_equal. same_state.
Qed.

Lemma save_all entries s :
  directory_ready s = true -> accepted entries ->
  saveSessionLocally cfg env (FObj entries) s
  = (Ret tt,
     put (Some (store_all entries (default ∅ (dir s))))
         (opening s ++ map write_event entries ++ [EvLog LSaved]) s).
Proof.
  intros Hready Hok. unfold saveSessionLocally, try_catch.
  rewrite save_opening by assumption.
  cbn [Object_entries]. unfold bind at 1.
  rewrite (write_entries_accepted entries _ (default ∅ (dir s))) by (simpl; auto).
  unfold console_log, modify. rewrite emit_advance. unfold put.
  f_equal. same_state.
Qed.

Lemma save_aborts before f c after s :
  directory_ready s = true -> accepted before -> f ∈ denied env ->
  saveSessionLocally cfg env (FObj (before ++ (f, c) :: after)) s
  = (Ret tt,
     put (Some (store_all before (default ∅ (dir s))))
         (opening s ++ map write_event (before ++ [(f, c)])
            ++ [EvError (LSaveFailed (FsError f))]) s).
Proof.
  intros Hready Hok Hf. unfold saveSessionLocally, try_catch.
  rewrite save_opening by assumption.
  cbn [Object_entries]. unfold bind at 1.
  rewrite (write_entries_refused before f c after _ (default ∅ (dir s)))
    by (simpl; auto).
  unfold console_error, modify. rewrite emit_advance. unfold put.
  f_equal. same_state.
Qed.

(** ** What a computation can end in *)

Lemma safe_ret {A} E P (a : A) : safe E P (ret a).
Proof. intros s. exact I. Qed.

Lemma safe_throw {A} (E : JsError -> Prop) P e : E e -> safe E P (@throw A e).
Proof. intros He s. exact He. Qed.

Lemma safe_gets {A} E P (f : State -> A) : safe E P (gets f).
Proof. intros s. exact I. Qed.

Lemma safe_modify E P f : safe E P (modify f).
Proof. intros s. exact I. Qed.

Lemma safe_bind {A B} E P (m : M A) (k : A -> M B) :
  safe E P m -> (forall a, safe E P (k a)) -> safe E P (bind m k).
Proof.
  intros Hm Hk s. unfold bind. specialize (Hm s).
  destruct (m s) as [[a|e|] s']; simpl in *; try assumption. apply Hk.
Qed.

Lemma safe_when E P b m : safe E P m -> safe E P (when b m).
Proof. intros Hm. destruct b; [exact Hm | apply safe_ret]. Qed.

Lemma safe_try_catch {A} E' E P (m : M A) h :
  safe E' P m -> (forall e, E' e -> safe E P (h e)) -> safe E P (try_catch m h).
Proof.
  intros Hm Hh s. unfold try_catch. specialize (Hm s).
  destruct (m s) as [[a|e|] s']; simpl in *; try assumption; try exact I.
  apply Hh, Hm.
Qed.

Lemma safe_weaken {A} (E E' : JsError -> Prop) (P P' : Prop) (m : M A) :
  (forall e, E e -> E' e) -> (P -> P') -> safe E P m -> safe E' P' m.
Proof.
  intros HE HP Hm s. specialize (Hm s).
  destruct (m s) as [[a|e|] s']; simpl in *; auto.
Qed.

Ltac safe_step :=
  first [ apply safe_bind; [|intros ?]
        | apply safe_ret | apply safe_gets | apply safe_modify
        | apply safe_when
        | apply safe_throw; exact I ].

Lemma safe_writeFileSync f c : safe any_error False (fs_writeFileSync env f c).
Proof.
  unfold fs_writeFileSync.
  apply safe_bind; [apply safe_modify|intros _].
  apply safe_bind; [apply safe_gets|intros d].
  destruct d; [destruct (bool_decide _)|]; repeat safe_step.
Qed.

Lemma safe_write_entries entries : safe any_error False (write_entries env entries).
Proof.
  induction entries as [|[f c] rest IH]; simpl; [apply safe_ret|].
  apply safe_bind; [apply safe_writeFileSync | intros _; exact IH].
Qed.

Lemma safe_mkdirSync : safe any_error False (fs_mkdirSync cfg env).
Proof.
  unfold fs_mkdirSync. repeat safe_step. destruct (mkdir_fails env); repeat safe_step.
Qed.

(** Whatever goes wrong while saving is caught and logged. *)
Lemma safe_saveSessionLocally files :
  safe no_error False (saveSessionLocally cfg env files).
Proof.
  unfold saveSessionLocally. apply safe_try_catch with (E' := any_error).
  - apply safe_bind; [apply safe_gets|intros there].
    apply safe_bind; [apply safe_when, safe_mkdirSync|intros _].
    apply safe_bind; [|intros _; apply safe_modify].
    destruct (Object_entries files); [apply safe_write_entries|].
    apply safe_throw; exact I.
  - intros e _. apply safe_modify.
Qed.

Lemma save_returns files s : (saveSessionLocally cfg env files s).1 = Ret tt.
Proof.
  pose proof (safe_saveSessionLocally files s) as H.
  destruct (saveSessionLocally cfg env files s) as [[[]|e|] s']; simpl in *;
    [reflexivity | destruct H | destruct H].
Qed.

(** No failure of the manager leaves [fetchSessionFromManager]. *)
Lemma safe_fetch : safe no_error False (fetchSessionFromManager cfg env).
Proof.
  intros s. rewrite fetch_exact. exact I.
Qed.

Lemma safe_retry_while fuel : forall v, safe no_error True (retry_while cfg env fuel v).
Proof.
  induction fuel as [|fuel IH]; intros v; simpl; destruct (truthy v);
    try apply safe_ret.
  - intros s. exact I.
  - apply safe_bind; [apply safe_modify|intros _].
    apply safe_bind; [apply safe_modify|intros _].
    apply safe_bind; [|intros v'; apply IH].
    eapply safe_weaken; [| |apply safe_fetch]; [auto|intros []].
Qed.

Lemma safe_useMultiFileAuthState : safe corrupt_only False (useMultiFileAuthState env).
Proof.
  unfold useMultiFileAuthState. repeat safe_step.
  destruct (loadable env _); repeat safe_step. apply safe_throw. reflexivity.
Qed.

Lemma safe_getAuthState fuel : safe corrupt_only True (getAuthState cfg env fuel).
Proof.
  unfold getAuthState, fetch_until_truthy, hasLocalSession, fs_existsSync_file.
  apply safe_bind; [apply safe_gets|intros local].
  assert (Hload : safe corrupt_only True (useMultiFileAuthState env)).
  { eapply safe_weaken; [| |apply safe_useMultiFileAuthState]; [auto|intros []]. }
  destruct local.
  - apply safe_bind; [apply safe_modify|intros _; exact Hload].
  - apply safe_bind.
    + apply safe_bind.
      * eapply safe_weaken; [| |apply safe_fetch]; [intros ? []|intros []].
      * intros v. eapply safe_weaken; [| |apply safe_retry_while]; [intros ? []|auto].
    + intros files. apply safe_bind; [|intros _; exact Hload].
      eapply safe_weaken; [| |apply safe_saveSessionLocally]; [intros ? []|intros []].
Qed.

Lemma safe_startBot fuel : safe corrupt_only True (startBot cfg env fuel).
Proof.
  unfold startBot, fetchLatestBaileysVersion, makeWASocket.
  apply safe_bind; [apply safe_getAuthState|intros state].
  repeat safe_step.
Qed.

(** ** The first fetch and the loop together *)

Lemma fetch_until_truthy_hit fuel s k :
  k <= fuel -> misses (requests s) k ->
  truthy (answer (manager env (requests s + k))) = true ->
  fetch_until_truthy cfg env fuel s
  = (Ret (answer (manager env (requests s + k))),
     advance (S k) (attempts (requests s) k) s).
Proof.
  intros Hfuel Hmiss Hhit. unfold fetch_until_truthy, bind.
  rewrite fetch_exact. destruct k as [|k].
  - rewrite Nat.add_0_r in *. rewrite retry_while_truthy by assumption.
    unfold attempts. simpl retries. now rewrite app_nil_r.
  - assert (H0 : truthy (answer (manager env (requests s))) = false).
    { specialize (Hmiss 0). rewrite Nat.add_0_r in Hmiss. apply Hmiss. lia. }
    rewrite (retry_while_hit k); simpl requests.
    + rewrite advance_advance.
      replace (requests s + 1 + k) with (requests s + S k) by lia.
      replace (requests s + 1) with (S (requests s)) by lia.
      reflexivity.
    + lia.
    + assumption.
    + replace (requests s + 1) with (S (requests s)) by lia.
      now apply misses_tail.
    + replace (requests s + 1 + k) with (requests s + S k) by lia. assumption.
Qed.

Lemma fetch_until_truthy_pending fuel s :
  misses (requests s) (S fuel) ->
  fetch_until_truthy cfg env fuel s
  = (Pending, advance (S fuel) (attempts (requests s) fuel) s).
Proof.
  intros Hmiss. unfold fetch_until_truthy, bind. rewrite fetch_exact.
  rewrite retry_while_pending; simpl requests.
  - rewrite advance_advance.
    replace (requests s + 1) with (S (requests s)) by lia. reflexivity.
  - specialize (Hmiss 0). rewrite Nat.add_0_r in Hmiss. apply Hmiss. lia.
  - replace (requests s + 1) with (S (requests s)) by lia.
    now apply misses_tail.
Qed.

Lemma fetch_until_truthy_settles fuel s o s' :
  fetch_until_truthy cfg env fuel s = (o, s') ->
  o = Pending \/ exists v, o = Ret v /\ truthy v = true.
Proof.
  unfold fetch_until_truthy, bind. rewrite fetch_exact. apply retry_while_settles.
Qed.

Lemma count_fetch_events p r :
  (forall l, p (EvLog l) = false) -> (forall l, p (EvError l) = false) ->
  count p (fetch_events r) = if p (EvGet (session_url cfg)) then 1 else 0.
Proof.
  intros Hlog Herr. unfold fetch_events. rewrite count_app, !count_cons, Hlog.
  destruct r; rewrite ?count_cons, ?Herr; unfold count; simpl; lia.
Qed.

Lemma retries_counts n k :
  count (is_sleep (SESSION_RETRY_INTERVAL cfg)) (retries n k) = k
  /\ count is_get (retries n k) = k.
Proof.
  revert n. induction k as [|k IH]; intros n; [split; reflexivity|].
  destruct (IH (S n)) as [IHs IHg]. cbn [retries].
  rewrite !count_app, !count_cons, !count_fetch_events, IHs, IHg
    by reflexivity.
  simpl. rewrite Z.eqb_refl. unfold count; simpl. split; lia.
Qed.

(** ** The retry loop, as the session provider runs it *)

(** C2 (amended).  After [k] answers that are falsy (a rejected request, a
    body without files, or files that are null, false, zero or the empty
    string), each followed by the announcement of the wait and the wait of
    SESSION_RETRY_INTERVAL, the loop has sent [k + 1] requests and stands
    exactly there: it has returned the next answer when that answer is
    truthy, and it is still pending, not failed, when the following answer
    is falsy too, however large [k] is.  Truthy is all the loop asks: an
    object with no entries ends it like any other. *)
Theorem fetch_loop_ends_on_truthy_answer fuel s k :
  k <= fuel ->
  misses (requests s) k ->
  truthy (answer (manager env (requests s + k))) = true \/ k = fuel ->
  fetch_until_truthy cfg env fuel s
  = (if truthy (answer (manager env (requests s + k)))
     then Ret (answer (manager env (requests s + k)))
     else Pending,
     advance (S k) (attempts (requests s) k) s)
  /\ count (is_sleep (SESSION_RETRY_INTERVAL cfg)) (attempts (requests s) k) = k
  /\ count is_get (attempts (requests s) k) = S k.
Proof.
  intros Hfuel Hmiss Hend. split.
  - destruct (truthy (answer (manager env (requests s + k)))) eqn:Hk.
    + now apply fetch_until_truthy_hit.
    + destruct Hend as [Hend | ->]; [discriminate|].
      apply fetch_until_truthy_pending.
      intros i Hi. destruct (decide (i = fuel)) as [-> | Hne]; [assumption|].
      apply Hmiss. lia.
  - unfold attempts. destruct (retries_counts (S (requests s)) k) as [Hs Hg].
    rewrite !count_app, !count_fetch_events, Hs, Hg by reflexivity.
    simpl. split; lia.
Qed.

(** ** Saving *)

(** The line that closes a save: success, or the one error caught. *)
Lemma save_closing_cases before rest s :
  directory_ready s = true -> accepted before ->
  match rest with [] => True | e :: _ => e.1 ∈ denied env end ->
  saveSessionLocally cfg env (FObj (before ++ rest)) s
  = (Ret tt,
     put (Some (store_all before (default ∅ (dir s))))
         (opening s ++ map write_event (before ++ take 1 rest)
            ++ [match rest with
                | [] => EvLog LSaved
                | e :: _ => EvError (LSaveFailed (FsError e.1))
                end]) s).
Proof.
  intros Hready Hok Hrest. destruct rest as [|[f c] after].
  - rewrite !app_nil_r. now apply save_all.
  - simpl in Hrest. simpl take. now apply save_aborts.
Qed.

(** C3 (amended).  [saveSessionLocally] always returns normally, whatever
    fails inside it.  When the directory is there or can be made, the
    entries are written in order up to the first one the system refuses:
    that write is attempted, the error is logged once, and no later entry
    is attempted; the entries before it stay written. *)
Theorem save_stops_at_first_refusal before rest s :
  directory_ready s = true ->
  accepted before ->
  match rest with [] => True | e :: _ => e.1 ∈ denied env end ->
  saveSessionLocally cfg env (FObj (before ++ rest)) s
  = (Ret tt,
     put (Some (store_all before (default ∅ (dir s))))
         (opening s ++ map write_event (before ++ take 1 rest)
            ++ [match rest with
                | [] => EvLog LSaved
                | e :: _ => EvError (LSaveFailed (FsError e.1))
                end]) s)
  /\ forall files s0, (saveSessionLocally cfg env files s0).1 = Ret tt.
Proof.
  intros Hready Hok Hrest. split.
  - now apply save_closing_cases.
  - apply save_returns.
Qed.

(** ** What a computation leaves alone *)

#[local] Instance frame_preorder : PreOrder frame.
Proof.
  split.
  - intros s. repeat split.
  - intros s1 s2 s3. unfold frame. intros (?&?&?&?&?) (?&?&?&?&?).
    repeat split; congruence.
Qed.

#[local] Instance still_preorder : PreOrder still.
Proof.
  split.
  - intros s. split; reflexivity.
  - intros s1 s2 s3 [? ?] [? ?]. split; [etransitivity; eassumption|congruence].
Qed.

Section Keeps.

Context (R : State -> State -> Prop) `{!PreOrder R}.

Lemma keeps_ret {A} (a : A) : keeps R (ret a).
Proof. intros s. reflexivity. Qed.

Lemma keeps_throw {A} e : keeps R (@throw A e).
Proof. intros s. reflexivity. Qed.

Lemma keeps_pending {A} : keeps R (@pending A).
Proof. intros s. reflexivity. Qed.

Lemma keeps_gets {A} (f : State -> A) : keeps R (gets f).
Proof. intros s. reflexivity. Qed.

Lemma keeps_bind {A B} (m : M A) (k : A -> M B) :
  keeps R m -> (forall a, keeps R (k a)) -> keeps R (bind m k).
Proof.
  intros Hm Hk s. unfold bind. specialize (Hm s).
  destruct (m s) as [[a|e|] s']; simpl in *; try assumption.
  etransitivity; [exact Hm|apply Hk].
Qed.

Lemma keeps_when b m : keeps R m -> keeps R (when b m).
Proof. intros Hm. destruct b; [exact Hm|apply keeps_ret]. Qed.

Lemma keeps_try_catch {A} (m : M A) h :
  keeps R m -> (forall e, keeps R (h e)) -> keeps R (try_catch m h).
Proof.
  intros Hm Hh s. unfold try_catch. specialize (Hm s).
  destruct (m s) as [[a|e|] s']; simpl in *; try assumption.
  etransitivity; [exact Hm|apply Hh].
Qed.

End Keeps.

Lemma keeps_weaken {A} (R R' : State -> State -> Prop) (m : M A) :
  (forall s s', R s s' -> R' s s') -> keeps R m -> keeps R' m.
Proof. intros HR Hm s. apply HR, Hm. Qed.

Lemma still_frame {A} (m : M A) : keeps still m -> keeps frame m.
Proof. apply keeps_weaken. now intros s s' [? ?]. Qed.

Lemma notices_emit e s :
  notices (emit e s) = notices s + (if is_notice e then 1 else 0).
Proof. unfold notices. simpl. rewrite count_app, count_cons. unfold count; simpl. lia. Qed.

Lemma keeps_emit e : is_notice e = false -> keeps still (modify (emit e)).
Proof.
  intros He s. simpl. unfold still, frame. rewrite notices_emit, He. simpl.
  repeat split. lia.
Qed.

Lemma keeps_set_dir d : keeps still (modify (set_dir d)).
Proof. intros s. repeat split. Qed.

Ltac keeps_step :=
  first [ apply keeps_bind; [typeclasses eauto| |intros ?]
        | apply keeps_ret; typeclasses eauto
        | apply keeps_gets; typeclasses eauto
        | apply keeps_throw; typeclasses eauto
        | apply keeps_pending; typeclasses eauto
        | apply keeps_when; [typeclasses eauto|]
        | apply keeps_set_dir
        | apply keeps_emit; reflexivity ].

Lemma keeps_writeFileSync f c : keeps still (fs_writeFileSync env f c).
Proof.
  unfold fs_writeFileSync. keeps_step; [keeps_step|].
  apply keeps_bind; [typeclasses eauto|keeps_step|intros d].
  destruct d; [destruct (bool_decide _)|]; repeat keeps_step.
Qed.

Lemma keeps_write_entries entries : keeps still (write_entries env entries).
Proof.
  induction entries as [|[f c] rest IH]; simpl; [keeps_step|].
  keeps_step; [apply keeps_writeFileSync|exact IH].
Qed.

Lemma keeps_mkdirSync : keeps still (fs_mkdirSync cfg env).
Proof.
  unfold fs_mkdirSync. keeps_step; [keeps_step|].
  destruct (mkdir_fails env); [keeps_step|].
  intros s. destruct (dir s) eqn:Hd; simpl; rewrite Hd; repeat split.
Qed.

Lemma keeps_saveSessionLocally files : keeps still (saveSessionLocally cfg env files).
Proof.
  unfold saveSessionLocally, console_log, console_error.
  apply keeps_try_catch; [typeclasses eauto| |intros e; keeps_step].
  keeps_step; [keeps_step|].
  keeps_step; [keeps_step; apply keeps_mkdirSync|].
  keeps_step; [|keeps_step].
  destruct (Object_entries files); [apply keeps_write_entries|keeps_step].
Qed.

Lemma frame_advance n evs s : count is_notice evs = 0 -> frame s (advance n evs s).
Proof.
  intros H. unfold frame, notices. simpl. rewrite count_app, H.
  repeat split. lia.
Qed.

Lemma keeps_fetch : keeps frame (fetchSessionFromManager cfg env).
Proof.
  intros s. rewrite fetch_exact. simpl. apply frame_advance.
  now rewrite count_fetch_events.
Qed.

Lemma keeps_retry_while fuel : forall v, keeps frame (retry_while cfg env fuel v).
Proof.
  induction fuel as [|fuel IH]; intros v; simpl; destruct (truthy v);
    try (keeps_step; fail).
  unfold console_log, sleep.
  keeps_step; [apply still_frame; keeps_step|].
  keeps_step; [apply still_frame; keeps_step|].
  keeps_step; [apply keeps_fetch|apply IH].
Qed.

Lemma keeps_useMultiFileAuthState : keeps still (useMultiFileAuthState env).
Proof.
  unfold useMultiFileAuthState. keeps_step; [keeps_step|]. keeps_step; [keeps_step|].
  destruct (loadable env _); repeat keeps_step.
Qed.

Lemma keeps_getAuthState fuel : keeps frame (getAuthState cfg env fuel).
Proof.
  unfold getAuthState, fetch_until_truthy, hasLocalSession, fs_existsSync_file,
    console_log.
  apply keeps_bind; [typeclasses eauto|keeps_step|intros local]. destruct local.
  - keeps_step; [apply still_frame; keeps_step|].
    apply still_frame, keeps_useMultiFileAuthState.
  - keeps_step.
    + keeps_step; [apply keeps_fetch|apply keeps_retry_while].
    + keeps_step; [apply still_frame, keeps_saveSessionLocally|].
      apply still_frame, keeps_useMultiFileAuthState.
Qed.

(** ** Loading *)

Lemma load_exact s :
  useMultiFileAuthState env s
  = (load_outcome (default ∅ (dir s)),
     if loadable env (default ∅ (dir s))
     then put (Some (default ∅ (dir s))) [EvLoad] s
     else emit EvLoad s).
Proof.
  unfold useMultiFileAuthState, load_outcome, bind, modify, gets, ret, throw; simpl.
  destruct (loadable env _); f_equal. same_state.
Qed.

(** ** The session provider with a local session *)

(** C6.  When creds.json is in the session directory, [getAuthState] is
    the load of that directory and nothing else, whatever the fuel: no
    request is sent, nothing is waited for, the directory is as it was. *)
Theorem local_session_skips_manager fuel s :
  (hasLocalSession s).1 = Ret true ->
  getAuthState cfg env fuel s
  = (load_outcome (default ∅ (dir s)), advance 0 [EvLog LUsingLocal; EvLoad] s)
  /\ requests (getAuthState cfg env fuel s).2 = requests s
  /\ count is_get (trace (getAuthState cfg env fuel s).2) = count is_get (trace s)
  /\ dir (getAuthState cfg env fuel s).2 = dir s.
Proof.
  intros Hlocal.
  assert (Hrun : getAuthState cfg env fuel s
    = (load_outcome (default ∅ (dir s)), advance 0 [EvLog LUsingLocal; EvLoad] s)).
  { unfold getAuthState, bind at 1.
    unfold hasLocalSession, fs_existsSync_file, gets in *. simpl in Hlocal.
    destruct (dir s) as [m|] eqn:Hdir; [|discriminate].
    destruct (m !! "creds.json") eqn:Hcreds; [|discriminate].
    unfold console_log, bind, modify. rewrite load_exact. simpl. rewrite Hdir. simpl.
    f_equal. destruct (loadable env m); same_state. }
  rewrite Hrun. simpl. repeat split; try lia.
  rewrite count_app. unfold count at 2. simpl. lia.
Qed.

(** ** Save, then load *)




(** ** The session provider without a local session *)

Lemma getAuthState_remote fuel s k :
  (hasLocalSession s).1 = Ret false ->
  k <= fuel -> misses (requests s) k ->
  truthy (answer (manager env (requests s + k))) = true ->
  getAuthState cfg env fuel s
  = (saveSessionLocally cfg env (answer (manager env (requests s + k)));;
     useMultiFileAuthState env)
      (advance (S k) (attempts (requests s) k) s).
Proof.
  intros Hlocal Hfuel Hmiss Hhit. unfold getAuthState. unfold bind at 1.
  unfold hasLocalSession, fs_existsSync_file, gets in *. simpl in Hlocal.
  injection Hlocal as ->.
  unfold bind at 1. now rewrite (fetch_until_truthy_hit fuel s k).
Qed.

Lemma on_close_returns update s :
  is_close (connection update) = true ->
  (on_connection_update cfg env update s).1 = Ret tt.
Proof.
  intros Hclose. unfold on_connection_update.
  destruct (connection update) as [[]|]; try discriminate. simpl.
  unfold bind, ret, console_log, modify, setTimeout_startBot, gets,
    fs_existsSync_dir, fs_rmSync, when; simpl.
  destruct (code_is _ DisconnectReason.loggedOut); simpl.
  - destruct (dir s); reflexivity.
  - destruct (code_is _ DisconnectReason.restartRequired); reflexivity.
Qed.

(** C9.  When the bundle fetched after [k] failed attempts has been saved
    and the library rejects the directory, [getAuthState] throws
    CorruptState and so does [startBot]: the load is the last thing that
    happened, no further request was sent, no socket was made and nothing
    was scheduled.  Nothing else is ever thrown by [startBot]: a failing
    fetch returns null and a failing save returns normally, and the
    listener's handling of a disconnect returns normally as well. *)
Theorem corrupt_bundle_alone_propagates :
  (forall fuel s k,
     (hasLocalSession s).1 = Ret false ->
     k <= fuel -> misses (requests s) k ->
     truthy (answer (manager env (requests s + k))) = true ->
     loadable env (default ∅ (dir (saved s k))) = false ->
     getAuthState cfg env fuel s = (Throw CorruptState, emit EvLoad (saved s k))
     /\ startBot cfg env fuel s = (Throw CorruptState, emit EvLoad (saved s k))
     /\ requests (emit EvLoad (saved s k)) = requests s + S k
     /\ frame s (emit EvLoad (saved s k)))
  /\ (forall fuel s e, (startBot cfg env fuel s).1 = Throw e -> e = CorruptState)
  /\ (forall s, exists v, (fetchSessionFromManager cfg env s).1 = Ret v)
  /\ (forall files s, (saveSessionLocally cfg env files s).1 = Ret tt)
  /\ (forall update s, is_close (connection update) = true ->
        (on_connection_update cfg env update s).1 = Ret tt).
Proof.
  split; [|split; [|split; [|split]]].
  - intros fuel s k Hlocal Hfuel Hmiss Hhit Hbad.
    assert (Hget : getAuthState cfg env fuel s
                   = (Throw CorruptState, emit EvLoad (saved s k))).
    { rewrite (getAuthState_remote fuel s k) by assumption.
      unfold bind, saved in *.
      pose proof (save_returns (answer (manager env (requests s + k)))
                    (advance (S k) (attempts (requests s) k) s)) as Hret.
      destruct (saveSessionLocally _ _ _ _) as [o s2]. simpl in *. subst o.
      rewrite load_exact. unfold load_outcome. now rewrite Hbad. }
    split; [exact Hget|]. split; [|split].
    + unfold startBot, bind at 1. now rewrite Hget.
    + simpl. unfold saved.
      destruct (keeps_saveSessionLocally (answer (manager env (requests s + k)))
                  (advance (S k) (attempts (requests s) k) s)) as [_ ->].
      reflexivity.
    + pose proof (keeps_getAuthState fuel s) as Hk. rewrite Hget in Hk. exact Hk.
  - intros fuel s e H. pose proof (safe_startBot fuel s) as Hs.
    rewrite H in Hs. exact Hs.
  - intros s. rewrite fetch_exact. eauto.
  - apply save_returns.
  - apply on_close_returns.
Qed.

(** ** Disconnects *)

Lemma on_close_exact update s :
  is_close (connection update) = true ->
  on_connection_update cfg env update s
  = (Ret tt,
     set_timers (timers s ++ [restart_delay cfg update])
       (if is_logout update
        then set_isFirstConnect true (put None (close_events update s) s)
        else advance 0 (close_events update s) s)).
Proof.
  intros Hclose. unfold on_connection_update, is_logout, restart_delay, close_events.
  rewrite Hclose.
  destruct (connection update) as [[]|]; try discriminate. simpl.
  unfold bind, ret, console_log, modify, setTimeout_startBot, gets,
    fs_existsSync_dir, fs_rmSync, when; simpl.
  destruct (code_is _ DisconnectReason.loggedOut); simpl.
  - destruct (dir s) eqn:Hd; unfold modify; simpl; f_equal; same_state.
  - destruct (code_is _ DisconnectReason.restartRequired); unfold modify; simpl;
      f_equal; same_state.
Qed.

Lemma settle_ret (m : M unit) s s' : m s = (Ret tt, s') -> settle m s = s'.
Proof. unfold settle. now intros ->. Qed.

Lemma step_close fuel h update s :
  is_Some (sockets s !! h) ->
  is_close (connection update) = true ->
  step cfg env fuel (Emit h (ConnectionUpdated update)) s
  = set_timers (timers s ++ [restart_delay cfg update])
      (if is_logout update
       then set_isFirstConnect true (put None (close_events update s) s)
       else advance 0 (close_events update s) s).
Proof.
  intros [a Ha] Hclose. simpl. rewrite Ha.
  apply settle_ret. now apply on_close_exact.
Qed.


(** C1.  A disconnect whose status code is the library's logged-out,
    delivered to a socket with listeners, leaves no session directory (so
    no file of the session), sets [isFirstConnect], and adds one timer of
    RECONNECT_INTERVAL for [startBot]; the socket variables and the request
    count are as before.  In the state it leaves, [getAuthState] finds no
    local session and goes to the manager. *)
Theorem logged_out_wipes_and_restarts fuel h update s :
  is_Some (sockets s !! h) ->
  is_logout update = true ->
  dir (step cfg env fuel (Emit h (ConnectionUpdated update)) s) = None
  /\ isFirstConnect (step cfg env fuel (Emit h (ConnectionUpdated update)) s) = true
  /\ timers (step cfg env fuel (Emit h (ConnectionUpdated update)) s)
     = timers s ++ [RECONNECT_INTERVAL cfg]
  /\ sock (step cfg env fuel (Emit h (ConnectionUpdated update)) s) = sock s
  /\ sockets (step cfg env fuel (Emit h (ConnectionUpdated update)) s) = sockets s
  /\ requests (step cfg env fuel (Emit h (ConnectionUpdated update)) s) = requests s
  /\ (hasLocalSession (step cfg env fuel (Emit h (ConnectionUpdated update)) s)).1
     = Ret false
  /\ forall fuel',
       getAuthState cfg env fuel' (step cfg env fuel (Emit h (ConnectionUpdated update)) s)
       = acquire_remotely fuel' (step cfg env fuel (Emit h (ConnectionUpdated update)) s).
Proof.
  intros Hh Hout. pose proof Hout as Hout'.
  unfold is_logout in Hout'. apply andb_true_iff in Hout' as [Hclose Hcode].
  rewrite step_close by assumption. rewrite Hout.
  unfold restart_delay. rewrite Hcode. simpl.
  repeat match goal with |- _ /\ _ => split end;
    try reflexivity; try apply Nat.add_0_r.
Qed.

(** C5.  A disconnect whose status code is the library's restart-required,
    delivered to a socket with listeners, leaves the session directory, the
    auth states of the sockets, [sock], [isFirstConnect] and the request
    count as they were, and adds one timer of 3000 ms for [startBot].  With
    a RECONNECT_INTERVAL above 3000 ms, that is shorter than the delay any
    close with another status code schedules. *)
Theorem restart_required_reopens_soon fuel h update s :
  (3000 < RECONNECT_INTERVAL cfg)%Z ->
  is_Some (sockets s !! h) ->
  is_close (connection update) = true ->
  code_is (statusCode update) DisconnectReason.restartRequired = true ->
  dir (step cfg env fuel (Emit h (ConnectionUpdated update)) s) = dir s
  /\ sockets (step cfg env fuel (Emit h (ConnectionUpdated update)) s) = sockets s
  /\ sock (step cfg env fuel (Emit h (ConnectionUpdated update)) s) = sock s
  /\ isFirstConnect (step cfg env fuel (Emit h (ConnectionUpdated update)) s)
     = isFirstConnect s
  /\ requests (step cfg env fuel (Emit h (ConnectionUpdated update)) s) = requests s
  /\ timers (step cfg env fuel (Emit h (ConnectionUpdated update)) s)
     = timers s ++ [3000%Z]
  /\ forall other,
       is_close (connection other) = true ->
       code_is (statusCode other) DisconnectReason.restartRequired = false ->
       timers (step cfg env fuel (Emit h (ConnectionUpdated other)) s)
       = timers s ++ [restart_delay cfg other]
       /\ (3000 < restart_delay cfg other)%Z.
Proof.
  intros Hcfg Hh Hclose Hcode.
  assert (Hnot : code_is (statusCode update) DisconnectReason.loggedOut = false).
  { unfold code_is in *. destruct (statusCode update) as [c|]; [|reflexivity].
    apply Z.eqb_eq in Hcode. subst c. reflexivity. }
  assert (Hother : forall other,
    code_is (statusCode other) DisconnectReason.restartRequired = false ->
    restart_delay cfg other = RECONNECT_INTERVAL cfg).
  { intros other Hcode'. unfold restart_delay. rewrite Hcode'.
    destruct (code_is (statusCode other) DisconnectReason.loggedOut); reflexivity. }
  assert (Hsched : forall other,
    is_close (connection other) = true ->
    timers (step cfg env fuel (Emit h (ConnectionUpdated other)) s)
    = timers s ++ [restart_delay cfg other]).
  { intros other Hclose'. now rewrite step_close. }
  rewrite step_close by assumption.
  unfold is_logout, restart_delay. rewrite Hclose, Hnot, Hcode. simpl.
  repeat match goal with |- _ /\ _ => split end;
    try reflexivity; try apply Nat.add_0_r.
  intros other Hclose' Hcode'. split; [now apply Hsched|].
  change (3000 < restart_delay cfg other)%Z. now rewrite Hother.
Qed.

(** ** Listeners that leave the supervisor alone *)

Lemma keeps_outbound op :
  (forall h, is_notice (op h) = false) -> keeps still (outbound env op).
Proof.
  intros Hop. unfold outbound.
  apply keeps_bind; [typeclasses eauto|keeps_step|intros current].
  destruct current as [h|]; [|keeps_step].
  keeps_step; [apply keeps_emit, Hop|].
  destruct (outbound_rejects env _); keeps_step.
Qed.

Lemma keeps_dispatch command from msg : keeps still (dispatch env command from msg).
Proof.
  unfold dispatch, sock_sendMessage.
  destruct (String.eqb command "ping"); [now apply keeps_outbound|].
  destruct (String.eqb command "alive"); [now apply keeps_outbound|keeps_step].
Qed.

Lemma keeps_on_message msg : keeps still (on_message cfg env msg).
Proof.
  unfold on_message.
  destruct (message msg) as [content|]; [|keeps_step].
  destruct (fromMe (key msg)); [keeps_step|].
  destruct (remoteJid (key msg)) as [from|]; [|keeps_step].
  unfold console_log, sock_readMessages, sock_sendPresenceUpdate.
  keeps_step; [keeps_step|].
  keeps_step; [keeps_step; now apply keeps_outbound|].
  keeps_step; [keeps_step; now apply keeps_outbound|].
  destruct (negb _); [keeps_step|apply keeps_dispatch].
Qed.

Lemma keeps_for_each_message messages : keeps still (for_each_message cfg env messages).
Proof.
  induction messages as [|msg rest IH]; simpl; [keeps_step|].
  keeps_step; [apply keeps_on_message|exact IH].
Qed.

Lemma keeps_on_messages_upsert type messages :
  keeps still (on_messages_upsert cfg env type messages).
Proof.
  unfold on_messages_upsert. destruct (negb _); [keeps_step|apply keeps_for_each_message].
Qed.

Lemma keeps_saveCreds content : keeps still (saveCreds env content).
Proof. apply keeps_writeFileSync. Qed.

Lemma frame_settle (m : M unit) s : keeps frame m -> frame s (settle m s).
Proof.
  intros Hm. unfold settle. specialize (Hm s).
  destruct (m s) as [[a|e|] s']; simpl in *; try assumption.
  etransitivity; [exact Hm|]. apply still_frame with (m := modify (emit (EvError (LUncaught e)))).
  now apply keeps_emit.
Qed.

(** ** The open connection *)

Lemma on_open_exact update s h :
  is_open (connection update) = true -> sock s = Some h ->
  on_connection_update cfg env update s
  = if isFirstConnect s
    then (if outbound_rejects env (EvSendMessage h (owner_jid cfg) ConnectedNotice None)
          then Throw OutboundError else Ret tt,
          set_isFirstConnect false
            (advance 0 [EvLog LConnected;
                        EvSendMessage h (owner_jid cfg) ConnectedNotice None] s))
    else (Ret tt, advance 0 [EvLog LConnected] s).
Proof.
  intros Hopen Hsock. unfold on_connection_update. rewrite Hopen.
  destruct (connection update) as [[]|]; try discriminate. simpl.
  unfold sock_sendMessage, outbound, console_log, when, bind, ret, modify, gets,
    throw; simpl.
  destruct (isFirstConnect s) eqn:Hfirst; simpl.
  - rewrite Hsock. simpl.
    destruct (outbound_rejects env _); f_equal; same_state.
  - f_equal. same_state.
Qed.

Lemma on_update_idle update s :
  is_open (connection update) = false -> is_close (connection update) = false ->
  on_connection_update cfg env update s = (Ret tt, s).
Proof.
  intros Hopen Hclose. unfold on_connection_update. now rewrite Hopen, Hclose.
Qed.

(** ** startBot *)

Lemma startBot_cases fuel s :
  isFirstConnect (startBot cfg env fuel s).2 = isFirstConnect s
  /\ notices (startBot cfg env fuel s).2 = notices s
  /\ timers (startBot cfg env fuel s).2 = timers s
  /\ match (startBot cfg env fuel s).1 with
     | Ret _ =>
         sock (startBot cfg env fuel s).2 = Some (length (sockets s))
         /\ exists state, sockets (startBot cfg env fuel s).2 = sockets s ++ [state]
     | _ =>
         sock (startBot cfg env fuel s).2 = sock s
         /\ sockets (startBot cfg env fuel s).2 = sockets s
     end.
Proof.
  destruct (keeps_getAuthState fuel s) as (Hsock & Hsockets & Hfirst & Htimers & Hnot).
  unfold startBot, fetchLatestBaileysVersion, makeWASocket, bind, modify, gets, ret.
  destruct (getAuthState cfg env fuel s) as [[state|e|] s1]; simpl in *;
    try (repeat split; assumption).
  rewrite Hsockets. repeat split; try assumption; eauto.
  unfold notices in *. simpl. rewrite !count_app, !count_cons, Hnot.
  unfold count; simpl. lia.
Qed.

(** ** Steps of the event loop *)

Lemma linked_sock s h a : linked s -> sockets s !! h = Some a -> is_Some (sock s).
Proof.
  unfold linked. destruct (sock s); [eauto|]. intros ->. discriminate.
Qed.

Lemma notices_advance n evs s :
  notices (advance n evs s) = notices s + count is_notice evs.
Proof. unfold notices. simpl. apply count_app. Qed.

Lemma settle_cases (m : M unit) s :
  settle m s = (m s).2
  \/ exists e, (m s).1 = Throw e /\ settle m s = emit (EvError (LUncaught e)) (m s).2.
Proof. unfold settle. destruct (m s) as [[a|e|] s']; simpl; eauto. Qed.

(** What a connection update that does not log out does to the flag and to
    the count of notifications. *)
Lemma settle_update update s h0 :
  sock s = Some h0 -> is_logout update = false ->
  sock (settle (on_connection_update cfg env update) s) = sock s
  /\ sockets (settle (on_connection_update cfg env update) s) = sockets s
  /\ notices (settle (on_connection_update cfg env update) s)
     + owed (settle (on_connection_update cfg env update) s)
     = notices s + owed s
  /\ (isFirstConnect s = false ->
      isFirstConnect (settle (on_connection_update cfg env update) s) = false)
  /\ (is_open (connection update) = true ->
      isFirstConnect (settle (on_connection_update cfg env update) s) = false).
Proof.
  intros Hsock Hout. unfold settle.
  destruct (is_open (connection update)) eqn:Hopen.
  - rewrite (on_open_exact update s h0) by assumption.
    destruct (isFirstConnect s) eqn:Hfirst;
      [destruct (outbound_rejects env _)|]; unfold owed; simpl;
      rewrite ?notices_emit; simpl;
      try (change (notices (set_isFirstConnect false ?x)) with (notices x));
      rewrite notices_advance, ?Hfirst; unfold count; simpl;
      repeat split; try congruence; lia.
  - destruct (is_close (connection update)) eqn:Hclose.
    + rewrite on_close_exact by assumption. rewrite Hout. unfold owed. simpl.
      change (notices (set_timers ?l ?x)) with (notices x).
      rewrite notices_advance.
      assert (Hc : count is_notice (close_events update s) = 0).
      { unfold close_events. rewrite count_cons. simpl.
        destruct (code_is _ DisconnectReason.loggedOut).
        - rewrite count_cons, count_app. destruct (dir s); reflexivity.
        - destruct (code_is _ _); reflexivity. }
      rewrite Hc. repeat split; try congruence; try lia; discriminate.
    + rewrite on_update_idle by assumption.
      repeat split; try congruence; discriminate.
Qed.

Lemma settle_still (m : M unit) s :
  keeps still m ->
  sock (settle m s) = sock s /\ sockets (settle m s) = sockets s
  /\ isFirstConnect (settle m s) = isFirstConnect s
  /\ notices (settle m s) = notices s.
Proof.
  intros Hm. destruct (frame_settle m s (still_frame m Hm)) as (?&?&?&?&?).
  repeat split; assumption.
Qed.

Lemma settle_startBot fuel s :
  linked s ->
  linked (settle (startBot cfg env fuel) s)
  /\ isFirstConnect (settle (startBot cfg env fuel) s) = isFirstConnect s
  /\ notices (settle (startBot cfg env fuel) s) = notices s.
Proof.
  intros Hl. destruct (startBot_cases fuel s) as (Hfirst & Hnot & _ & Hsockets).
  unfold settle, linked in *.
  destruct (startBot cfg env fuel s) as [[[]|e|] s']; simpl in *;
    rewrite ?notices_emit; simpl.
  - destruct Hsockets as [-> [state ->]]. rewrite length_app. simpl.
    repeat split; try assumption. lia.
  - destruct Hsockets as [-> ->]. repeat split; try assumption. lia.
  - destruct Hsockets as [-> ->]. repeat split; assumption.
Qed.

Lemma step_within_epoch fuel st s :
  linked s -> wipes st = false ->
  linked (step cfg env fuel st s)
  /\ notices (step cfg env fuel st s) + owed (step cfg env fuel st s)
     = notices s + owed s
  /\ (isFirstConnect s = false -> isFirstConnect (step cfg env fuel st s) = false).
Proof.
  intros Hl Hw. destruct st as [h ev|i]; simpl.
  - destruct (sockets s !! h) as [a|] eqn:Hh; [|repeat split; auto].
    destruct ev as [update|content|type messages]; simpl in *.
    + destruct (linked_sock s h a Hl Hh) as [h0 Hs].
      destruct (settle_update update s h0 Hs Hw) as (H1 & H2 & H3 & H4 & _).
      unfold linked in *. rewrite H1, H2. repeat split; assumption.
    + destruct (settle_still (saveCreds env content) s (keeps_saveCreds content))
        as (H1 & H2 & H3 & H4).
      unfold linked, owed in *. rewrite H1, H2, H3, H4. repeat split; congruence.
    + destruct (settle_still (on_messages_upsert cfg env type messages) s
                  (keeps_on_messages_upsert type messages)) as (H1 & H2 & H3 & H4).
      unfold linked, owed in *. rewrite H1, H2, H3, H4. repeat split; congruence.
  - destruct (timers s !! i) as [ms|]; [|repeat split; auto].
    destruct (settle_startBot fuel (set_timers (delete i (timers s)) s) Hl)
      as (H1 & H2 & H3).
    unfold owed. rewrite H2, H3. repeat split; [assumption|intros Hoff; exact Hoff].
Qed.

Lemma step_open fuel h update s :
  linked s -> is_Some (sockets s !! h) ->
  is_open (connection update) = true ->
  isFirstConnect (step cfg env fuel (Emit h (ConnectionUpdated update)) s) = false.
Proof.
  intros Hl [a Hh] Hopen. simpl. rewrite Hh.
  destruct (linked_sock s h a Hl Hh) as [h0 Hs].
  assert (Hout : is_logout update = false).
  { unfold is_logout. destruct (connection update) as [[]|]; try discriminate.
    reflexivity. }
  destruct (settle_update update s h0 Hs Hout) as (_ & _ & _ & _ & H). now apply H.
Qed.

Lemma run_app fuel steps1 steps2 s :
  run cfg env fuel (steps1 ++ steps2) s
  = run cfg env fuel steps2 (run cfg env fuel steps1 s).
Proof. unfold run. apply fold_left_app. Qed.

Lemma run_within_epoch fuel steps : forall s,
  linked s -> within_epoch steps ->
  linked (run cfg env fuel steps s)
  /\ notices (run cfg env fuel steps s) + owed (run cfg env fuel steps s)
     = notices s + owed s
  /\ (isFirstConnect s = false -> isFirstConnect (run cfg env fuel steps s) = false).
Proof.
  induction steps as [|st rest IH]; intros s Hl Hepoch; [repeat split; auto|].
  inversion Hepoch as [|? ? Hst Hrest]; subst.
  destruct (step_within_epoch fuel st s Hl Hst) as (Hl1 & Hn1 & Hf1).
  destruct (IH _ Hl1 Hrest) as (Hl2 & Hn2 & Hf2).
  change (run cfg env fuel (st :: rest) s)
    with (run cfg env fuel rest (step cfg env fuel st s)).
  repeat split; [assumption|congruence|auto].
Qed.

(** C4.  From a state in which [sock] is the socket made last, over any
    steps none of which is a logged-out disconnect (one credential epoch):
    the startup notifications sent so far plus the one still owed (one when
    [isFirstConnect] is set, none otherwise) stay the same, so at most one
    is sent and none once the flag is cleared; if one of the steps is an
    open reported by a socket with listeners, the flag is cleared at the
    end, so a notification owed at the start was sent exactly once, however
    many closes, restarts and opens the steps hold.  A logged-out disconnect
    after those steps sends nothing and sets the flag again: the next
    epoch owes one more notification. *)
Theorem startup_notice_once_per_epoch fuel steps s :
  linked s ->
  within_epoch steps ->
  notices (run cfg env fuel steps s) + owed (run cfg env fuel steps s)
  = notices s + owed s
  /\ (forall before h update after,
        steps = before ++ Emit h (ConnectionUpdated update) :: after ->
        is_open (connection update) = true ->
        is_Some (sockets (run cfg env fuel before s) !! h) ->
        notices (run cfg env fuel steps s) = notices s + owed s)
  /\ (forall h update,
        is_Some (sockets (run cfg env fuel steps s) !! h) ->
        is_logout update = true ->
        notices (step cfg env fuel (Emit h (ConnectionUpdated update))
                   (run cfg env fuel steps s))
        = notices (run cfg env fuel steps s)
        /\ owed (step cfg env fuel (Emit h (ConnectionUpdated update))
                   (run cfg env fuel steps s)) = 1
        /\ linked (step cfg env fuel (Emit h (ConnectionUpdated update))
                     (run cfg env fuel steps s))).
Proof.
  intros Hl Hepoch.
  destruct (run_within_epoch fuel steps s Hl Hepoch) as (Hl' & Hsum & _).
  split; [exact Hsum|]. split.
  - intros before h update after -> Hopen Hh.
    unfold within_epoch in Hepoch. apply Forall_app in Hepoch as [Hb Ha].
    apply Forall_cons in Ha as [_ Ha].
    destruct (run_within_epoch fuel before s Hl Hb) as (Hl1 & _ & _).
    pose proof (step_open fuel h update _ Hl1 Hh Hopen) as Hoff.
    rewrite run_app in *.
    change (run cfg env fuel (Emit h (ConnectionUpdated update) :: after)
              (run cfg env fuel before s))
      with (run cfg env fuel after
              (step cfg env fuel (Emit h (ConnectionUpdated update))
                 (run cfg env fuel before s))) in *.
    assert (Hl2 : linked (step cfg env fuel (Emit h (ConnectionUpdated update))
                            (run cfg env fuel before s))).
    { apply step_within_epoch; [assumption|].
      unfold wipes, is_logout. destruct (connection update) as [[]|]; try discriminate.
      reflexivity. }
    destruct (run_within_epoch fuel after _ Hl2 Ha) as (_ & _ & Hkeep).
    specialize (Hkeep Hoff). unfold owed in Hsum at 1. rewrite Hkeep in Hsum. lia.
  - intros h update Hh Hout. pose proof Hout as Hout'.
    unfold is_logout in Hout'. apply andb_true_iff in Hout' as [Hclose _].
    rewrite step_close by assumption. rewrite Hout. unfold owed, linked in *. simpl.
    change (notices (set_timers ?l (set_isFirstConnect ?b ?x))) with (notices x).
    unfold put. rewrite notices_advance.
    assert (Hc : count is_notice (close_events update (run cfg env fuel steps s)) = 0).
    { unfold close_events. rewrite count_cons. simpl.
      unfold is_logout in Hout. apply andb_true_iff in Hout as [_ ->].
      rewrite count_cons, count_app. destruct (dir _); reflexivity. }
    rewrite Hc. change (notices (set_dir ?d ?x)) with (notices x).
    repeat split; [lia|assumption].
Qed.

(** ** One socket variable, many subscribed sockets *)

Lemma step_linked fuel st s : linked s -> linked (step cfg env fuel st s).
Proof.
  intros Hl. destruct (wipes st) eqn:Hw.
  - destruct st as [h [update| |]|]; try discriminate. simpl in Hw.
    destruct (sockets s !! h) as [a|] eqn:Hh; [|simpl; now rewrite Hh].
    pose proof Hw as Hw'. unfold is_logout in Hw'.
    apply andb_true_iff in Hw' as [Hclose _].
    rewrite step_close by eauto. rewrite Hw. exact Hl.
  - now apply step_within_epoch.
Qed.

Lemma main_exact fuel s :
  main cfg env fuel s = settle (startBot cfg env fuel) (emit (EvLog LStarting) s).
Proof. reflexivity. Qed.

Lemma run_linked fuel steps : forall s, linked s -> linked (run cfg env fuel steps s).
Proof.
  induction steps as [|st rest IH]; intros s Hl; [exact Hl|].
  apply (IH (step cfg env fuel st s)). now apply step_linked.
Qed.

(** C7 (amended).  In every state the process reaches, [sock] is the
    socket made last, and there is none before the first [startBot] gets
    through; a [startBot] that gets through makes a socket that was not
    there and points [sock] at it, keeping the earlier ones.  Earlier
    sockets keep their listeners: what a socket with listeners emits is
    handled the same whichever socket it is, and a close reported by any
    of them schedules one more [startBot]. *)
Theorem sock_is_latest_and_old_sockets_still_heard :
  (forall fuel d steps,
     linked (run cfg env fuel steps (main cfg env fuel (initial d))))
  /\ (forall fuel s,
        (startBot cfg env fuel s).1 = Ret tt ->
        sock (startBot cfg env fuel s).2 = Some (length (sockets s))
        /\ exists state, sockets (startBot cfg env fuel s).2 = sockets s ++ [state])
  /\ (forall fuel h h' ev s,
        is_Some (sockets s !! h) -> is_Some (sockets s !! h') ->
        step cfg env fuel (Emit h ev) s = step cfg env fuel (Emit h' ev) s)
  /\ (forall fuel h update s,
        is_Some (sockets s !! h) -> is_close (connection update) = true ->
        timers (step cfg env fuel (Emit h (ConnectionUpdated update)) s)
        = timers s ++ [restart_delay cfg update]).
Proof.
  split; [|split; [|split]].
  - intros fuel d steps. apply run_linked. rewrite main_exact.
    apply settle_startBot. reflexivity.
  - intros fuel s Hret. destruct (startBot_cases fuel s) as (_ & _ & _ & H).
    now rewrite Hret in H.
  - intros fuel h h' ev s [a Ha] [a' Ha']. simpl. now rewrite Ha, Ha'.
  - intros fuel h update s Hh Hclose. now rewrite step_close.
Qed.

(** ** Inbound messages *)

Lemma on_message_skipped msg s :
  skipped msg = true -> on_message cfg env msg s = (Ret tt, s).
Proof.
  unfold skipped, on_message. destruct (message msg); [|reflexivity].
  now intros ->.
Qed.

Lemma for_each_message_filter messages : forall s,
  for_each_message cfg env messages s
  = for_each_message cfg env (filter (fun msg => skipped msg = false) messages) s.
Proof.
  induction messages as [|msg rest IH]; intros s; [reflexivity|].
  rewrite filter_cons. destruct (skipped msg) eqn:Hskip.
  - destruct (decide (true = false)) as [?|_]; [discriminate|].
    simpl. unfold bind. rewrite on_message_skipped by assumption. apply IH.
  - destruct (decide (false = false)) as [_|?]; [|congruence].
    simpl. unfold bind. destruct (on_message cfg env msg s) as [[[]|e|] s']; auto.
Qed.

(** C10.  A batch whose type is not notify, or whose messages all lack a
    content or come from the bot itself, leaves the state as it was:
    nothing is logged, read, announced or sent.  In any batch such a
    message contributes nothing: the listener does exactly what it does
    on the batch without it. *)
Theorem ignored_messages_do_nothing type messages s :
  type <> "notify" \/ Forall (fun msg => skipped msg = true) messages ->
  on_messages_upsert cfg env type messages s = (Ret tt, s)
  /\ (forall msg s', skipped msg = true -> on_message cfg env msg s' = (Ret tt, s'))
  /\ (forall type' batch s',
        on_messages_upsert cfg env type' batch s'
        = on_messages_upsert cfg env type'
            (filter (fun msg => skipped msg = false) batch) s').
Proof.
  intros Hignored. split; [|split].
  - unfold on_messages_upsert. destruct (String.eqb type "notify") eqn:Htype; simpl.
    + apply String.eqb_eq in Htype. destruct Hignored as [Hne|Hall]; [congruence|].
      clear Htype. induction Hall as [|msg rest Hskip _ IH]; [reflexivity|].
      simpl. unfold bind. now rewrite on_message_skipped.
    + reflexivity.
  - apply on_message_skipped.
  - intros type' batch s'. unfold on_messages_upsert.
    destruct (negb _); [reflexivity|apply for_each_message_filter].
Qed.

(** ** Pending restarts *)

#[local] Instance same_timers_preorder : PreOrder same_timers.
Proof.
  split; [intros s; reflexivity|].
  intros s1 s2 s3. unfold same_timers. congruence.
Qed.

Lemma still_same_timers {A} (m : M A) : keeps still m -> keeps same_timers m.
Proof. apply keeps_weaken. now intros s s' [(_ & _ & _ & Ht & _) _]. Qed.

Lemma settle_same_timers (m : M unit) s :
  keeps same_timers m -> timers (settle m s) = timers s.
Proof.
  intros Hm. unfold settle. specialize (Hm s). unfold same_timers in Hm.
  destruct (m s) as [[a|e|] s']; simpl in *; assumption.
Qed.

Lemma keeps_timers_outbound op : keeps same_timers (outbound env op).
Proof.
  intros s. unfold outbound, bind, gets, modify, throw, ret, same_timers. simpl.
  destruct (sock s) as [h|]; [|reflexivity]. simpl.
  now destruct (outbound_rejects env (op h)).
Qed.

Lemma keeps_timers_not_close update :
  is_close (connection update) = false ->
  keeps same_timers (on_connection_update cfg env update).
Proof.
  intros Hclose. unfold on_connection_update. rewrite Hclose.
  apply keeps_bind; [typeclasses eauto| |intros _; apply keeps_ret; typeclasses eauto].
  apply keeps_when; [typeclasses eauto|].
  apply keeps_bind; [typeclasses eauto| |intros _].
  { apply still_same_timers. unfold console_log. now apply keeps_emit. }
  apply keeps_bind; [typeclasses eauto|apply keeps_gets; typeclasses eauto|intros first].
  apply keeps_when; [typeclasses eauto|].
  apply keeps_bind; [typeclasses eauto|intros s; exact eq_refl|intros _].
  apply keeps_timers_outbound.
Qed.

Lemma delete_last_added (l : list Z) x : delete (length l) (l ++ [x]) = l.
Proof. induction l as [|y l IH]; simpl; [reflexivity|]. now rewrite IH. Qed.

Lemma delete_out_of_range (l : list Z) i : l !! i = None -> delete i l = l.
Proof.
  revert i. induction l as [|y l IH]; intros [|i] H; simpl in *;
    try reflexivity; try discriminate.
  now rewrite IH.
Qed.

(** X1.  Pending restarts change in two ways only.  A close reported by a
    socket with listeners adds exactly one timer, of the delay of its
    cause; a timer that fires is taken off and its [startBot] adds none,
    whether it gets through, throws or stays pending.  Opens and other
    connection updates, credential updates, message batches and events of
    sockets without listeners leave the timers as they are. *)
Theorem timers_change_by_close_and_fire_only fuel st s :
  timers (step cfg env fuel st s) = timers_after st s.
Proof.
  destruct st as [h ev|i]; simpl.
  - destruct (sockets s !! h) as [a|] eqn:Hh.
    + destruct ev as [update|content|type messages]; simpl.
      * destruct (is_close (connection update)) eqn:Hclose.
        -- unfold settle. rewrite on_close_exact by assumption. reflexivity.
        -- apply settle_same_timers. now apply keeps_timers_not_close.
      * apply settle_same_timers, still_same_timers, keeps_saveCreds.
      * apply settle_same_timers, still_same_timers, keeps_on_messages_upsert.
    + destruct ev; reflexivity.
  - destruct (timers s !! i) as [ms|] eqn:Hi.
    + destruct (startBot_cases fuel (set_timers (delete i (timers s)) s))
        as (_ & _ & Ht & _).
      unfold settle.
      destruct (startBot cfg env fuel _) as [[a|e|] s']; simpl in *; assumption.
    + symmetry. now apply delete_out_of_range.
Qed.

(** ** A close and the restart it schedules *)

Lemma getAuthState_local fuel s :
  (hasLocalSession s).1 = Ret true ->
  getAuthState cfg env fuel s
  = (load_outcome (default ∅ (dir s)), advance 0 [EvLog LUsingLocal; EvLoad] s).
Proof.
  intros Hlocal. unfold getAuthState, bind at 1.
  unfold hasLocalSession, fs_existsSync_file, gets in *. simpl in Hlocal.
  destruct (dir s) as [m|] eqn:Hdir; [|discriminate].
  destruct (m !! "creds.json") eqn:Hcreds; [|discriminate].
  unfold console_log, bind, modify. rewrite load_exact. simpl. rewrite Hdir. simpl.
  f_equal. destruct (loadable env m); same_state.
Qed.

Lemma startBot_through fuel s state s1 :
  getAuthState cfg env fuel s = (Ret state, s1) ->
  startBot cfg env fuel s
  = (Ret tt,
     set_sock (Some (length (sockets s1)))
       (set_sockets (sockets s1 ++ [state])
          (advance 0 [EvVersion; EvSocket (length (sockets s1))] s1))).
Proof.
  intros Hget.
  unfold startBot, fetchLatestBaileysVersion, makeWASocket, bind, modify, gets, ret.
  rewrite Hget. simpl. f_equal. same_state.
Qed.

Lemma fire_added_timer fuel s1 (l : list Z) d :
  timers s1 = l ++ [d] ->
  step cfg env fuel (Fire (length l)) s1
  = settle (startBot cfg env fuel) (set_timers l s1).
Proof.
  intros Ht. simpl. rewrite Ht, list_lookup_middle by reflexivity.
  now rewrite delete_last_added.
Qed.

(** X2.  A close that is not a logout, reported by a socket with
    listeners while the session is on disk and loads, followed by the
    firing of the timer it added: the manager is not asked, the directory,
    the other timers and [isFirstConnect] are as before, and [sock] is a
    new socket whose identity was read from the creds.json on disk. *)
Theorem reopen_loads_stored_session fuel h update s :
  is_Some (sockets s !! h) ->
  is_close (connection update) = true ->
  is_logout update = false ->
  (hasLocalSession s).1 = Ret true ->
  loadable env (default ∅ (dir s)) = true ->
  requests (run cfg env fuel (close_then_restart h update s) s) = requests s
  /\ dir (run cfg env fuel (close_then_restart h update s) s) = dir s
  /\ timers (run cfg env fuel (close_then_restart h update s) s) = timers s
  /\ isFirstConnect (run cfg env fuel (close_then_restart h update s) s)
     = isFirstConnect s
  /\ sock (run cfg env fuel (close_then_restart h update s) s)
     = Some (length (sockets s))
  /\ sockets (run cfg env fuel (close_then_restart h update s) s)
     = sockets s ++ [ {| creds := default ∅ (dir s) !! "creds.json" |} ].
Proof.
  intros Hh Hclose Hout Hlocal Hload.
  unfold run, close_then_restart. cbn [fold_left].
  rewrite step_close by assumption. rewrite Hout.
  erewrite fire_added_timer by reflexivity.
  set (s1 := set_timers (timers s) _).
  assert (Hlocal1 : (hasLocalSession s1).1 = Ret true) by exact Hlocal.
  pose proof (getAuthState_local fuel s1 Hlocal1) as Hget.
  unfold load_outcome in Hget. change (dir s1) with (dir s) in Hget.
  rewrite Hload in Hget.
  rewrite (settle_ret _ _ _ (startBot_through fuel s1 _ _ Hget)). simpl.
  assert (Hdir : dir s = Some (default ∅ (dir s))).
  { unfold hasLocalSession, fs_existsSync_file, gets in Hlocal. simpl in Hlocal.
    destruct (dir s); [reflexivity|discriminate]. }
  repeat match goal with |- _ /\ _ => split end; try reflexivity.
  lia.
Qed.


(** ** What a save leaves alone *)

#[local] Instance same_file_preorder f : PreOrder (same_file f).
Proof.
  split; [intros s; reflexivity|].
  intros s1 s2 s3. unfold same_file. congruence.
Qed.

#[local] Instance nothing_lost_preorder : PreOrder nothing_lost.
Proof.
  split; [intros s f H; exact H|].
  intros s1 s2 s3 H12 H23 f H. apply H23, H12, H.
Qed.

Lemma same_file_emit f e : keeps (same_file f) (modify (emit e)).
Proof. intros s. reflexivity. Qed.











(** ** A bundle without creds.json *)






(** ** A startup notification the library rejects *)

(** X6.  [isFirstConnect] is cleared before the notification is sent.
    When the library rejects the send, the open still clears the flag and
    the rejection ends in the log of unhandled rejections; the next open of
    the epoch only logs: the notification is not attempted again. *)
Theorem rejected_notice_is_not_sent_again fuel h h' update update' s h0 :
  sock s = Some h0 ->
  is_Some (sockets s !! h) ->
  is_Some (sockets s !! h') ->
  is_open (connection update) = true ->
  is_open (connection update') = true ->
  isFirstConnect s = true ->
  outbound_rejects env (EvSendMessage h0 (owner_jid cfg) ConnectedNotice None) = true ->
  step cfg env fuel (Emit h (ConnectionUpdated update)) s
  = emit (EvError (LUncaught OutboundError))
      (set_isFirstConnect false
         (advance 0 [EvLog LConnected;
                     EvSendMessage h0 (owner_jid cfg) ConnectedNotice None] s))
  /\ step cfg env fuel (Emit h' (ConnectionUpdated update'))
       (step cfg env fuel (Emit h (ConnectionUpdated update)) s)
     = advance 0 [EvLog LConnected]
         (step cfg env fuel (Emit h (ConnectionUpdated update)) s).
Proof.
  intros Hsock [a Ha] [a' Ha'] Hopen Hopen' Hfirst Hrej.
  assert (H1 : step cfg env fuel (Emit h (ConnectionUpdated update)) s
    = emit (EvError (LUncaught OutboundError))
        (set_isFirstConnect false
           (advance 0 [EvLog LConnected;
                       EvSendMessage h0 (owner_jid cfg) ConnectedNotice None] s))).
  { simpl. rewrite Ha. unfold settle.
    rewrite (on_open_exact update s h0) by assumption.
    now rewrite Hfirst, Hrej. }
  split; [exact H1|]. rewrite H1.
  set (s1 := emit _ _).
  assert (Ha1 : sockets s1 !! h' = Some a') by exact Ha'.
  assert (Hsock1 : sock s1 = Some h0) by exact Hsock.
  cbn [step listener]. rewrite Ha1. unfold settle.
  now rewrite (on_open_exact update' s1 h0) by assumption.
Qed.

(** ** Commands *)








(** ** What the message listener does, and on whose account *)

#[local] Instance adds_preorder P : PreOrder (adds P).
Proof.
  split.
  - intros s. exists []. split; [now rewrite app_nil_r|constructor].
  - intros s1 s2 s3 (evs1 & H1 & HP1) (evs2 & H2 & HP2).
    exists (evs1 ++ evs2). split; [now rewrite H2, H1, app_assoc|].
    now apply Forall_app.
Qed.

Lemma adds_weaken (P Q : Event -> Prop) s s' :
  (forall e, P e -> Q e) -> adds P s s' -> adds Q s s'.
Proof.
  intros HPQ (evs & Ht & HP). exists evs. split; [exact Ht|].
  eapply Forall_impl; eauto.
Qed.

Lemma adds_emit (P : Event -> Prop) e : P e -> keeps (adds P) (modify (emit e)).
Proof. intros He s. exists [e]. split; [reflexivity|]. now constructor. Qed.

Lemma adds_outbound (P : Event -> Prop) op :
  (forall h, P (op h)) -> keeps (adds P) (outbound env op).
Proof.
  intros Hop. unfold outbound.
  apply keeps_bind; [typeclasses eauto|apply keeps_gets; typeclasses eauto|].
  intros [h|]; [|apply keeps_throw; typeclasses eauto].
  apply keeps_bind; [typeclasses eauto|apply adds_emit, Hop|intros _].
  destruct (outbound_rejects env _);
    [apply keeps_throw|apply keeps_ret]; typeclasses eauto.
Qed.

Lemma adds_on_message msg :
  skipped msg = false -> keeps (adds (caused_by msg)) (on_message cfg env msg).
Proof.
  intros Hskip. unfold skipped in Hskip. unfold on_message.
  destruct (message msg) as [content|] eqn:Hmsg; [|discriminate].
  rewrite Hskip.
  destruct (remoteJid (key msg)) as [from|] eqn:Hfrom;
    [|apply keeps_throw; typeclasses eauto].
  assert (Hpre : startsWith (message_body content) (PREFIX cfg) = true -> prefixed msg).
  { intros H. exists content. now split. }
  unfold console_log, sock_readMessages, sock_sendPresenceUpdate.
  apply keeps_bind; [typeclasses eauto|now apply adds_emit|intros _].
  apply keeps_bind; [typeclasses eauto| |intros _].
  { destruct (AUTO_READ cfg) eqn:Hread; simpl;
      [|apply keeps_ret; typeclasses eauto].
    apply adds_outbound. intros h. simpl. now split. }
  apply keeps_bind; [typeclasses eauto| |intros _].
  { destruct (AUTO_TYPING cfg) eqn:Htyping; simpl;
      [|apply keeps_ret; typeclasses eauto].
    destruct (startsWith (message_body content) (PREFIX cfg)) eqn:Hstarts; simpl;
      [|apply keeps_ret; typeclasses eauto].
    apply adds_outbound. intros h. simpl. auto. }
  destruct (startsWith (message_body content) (PREFIX cfg)) eqn:Hstarts; simpl;
    [|apply keeps_ret; typeclasses eauto].
  unfold dispatch, sock_sendMessage.
  destruct (String.eqb _ "ping").
  { apply adds_outbound. intros h. simpl. auto. }
  destruct (String.eqb _ "alive").
  { apply adds_outbound. intros h. simpl. auto. }
  apply keeps_ret. typeclasses eauto.
Qed.

Lemma adds_for_each_message messages :
  keeps (adds (fun e => exists msg,
                 msg ∈ messages /\ skipped msg = false /\ caused_by msg e))
        (for_each_message cfg env messages).
Proof.
  induction messages as [|msg rest IH]; simpl.
  - apply keeps_ret. typeclasses eauto.
  - apply keeps_bind; [typeclasses eauto| |intros _].
    + intros s. destruct (skipped msg) eqn:Hskip.
      * rewrite on_message_skipped by assumption. reflexivity.
      * eapply adds_weaken; [|now apply adds_on_message].
        intros e He. exists msg. split; [left|]. now split.
    + intros s. eapply adds_weaken; [|apply IH].
      intros e (m & Hin & Hm). exists m. split; [now right|exact Hm].
Qed.

(** X8.  Whatever the batch, the message listener only adds to the trace,
    and every event it adds is on account of a message of the batch that is
    not passed over: the log of that message, a read receipt for its key
    and only with AUTO_READ on, a typing presence in its chat and only with
    AUTO_TYPING on and a prefixed text, or an answer (Pong or the bot's
    data) in its chat, quoting it, and only to a prefixed text.  The
    listener changes neither [sock], the sockets, [isFirstConnect], the
    timers nor the request count. *)
Theorem message_listener_acts_for_its_messages_only type messages s :
  adds (fun e => exists msg,
          msg ∈ messages /\ skipped msg = false /\ caused_by msg e)
       s (on_messages_upsert cfg env type messages s).2
  /\ still s (on_messages_upsert cfg env type messages s).2.
Proof.
  split; [|apply keeps_on_messages_upsert].
  unfold on_messages_upsert. destruct (negb _).
  - reflexivity.
  - apply adds_for_each_message.
Qed.

(** ** The owner *)

Lemma drop_chars_past n : forall k p,
  drop_chars (String.length n + k) (n +:+ p) = drop_chars k p.
Proof. induction n as [|c n IH]; intros k p; simpl; [reflexivity|apply IH]. Qed.

Lemma length_app_string n p :
  String.length (n +:+ p) = String.length n + String.length p.
Proof. induction n as [|c n IH]; simpl; [reflexivity|now rewrite IH]. Qed.

Lemma endsWith_past n p q :
  String.length q <= String.length p -> endsWith (n +:+ p) q = endsWith p q.
Proof.
  intros Hle. unfold endsWith. rewrite length_app_string.
  replace (String.length n + String.length p - String.length q)
    with (String.length n + (String.length p - String.length q)) by lia.
  rewrite drop_chars_past.
  destruct (String.length q <=? String.length p)%nat eqn:H1;
    destruct (String.length q <=? String.length n + String.length p)%nat eqn:H2;
    try reflexivity.
  - apply Nat.leb_le in H1. apply Nat.leb_gt in H2. lia.
  - apply Nat.leb_gt in H1. lia.
Qed.

Lemma prefix_at_no_at pat n c :
  no_at (String c n) = true -> String.prefix (String "@" pat) (String c n) = false.
Proof.
  cbn [no_at]. intros H. apply andb_true_iff in H as [Hc _].
  apply negb_true_iff, Ascii.eqb_neq in Hc. cbn [String.prefix].
  destruct (Ascii.ascii_dec "@" c); [congruence|reflexivity].
Qed.

Lemma remove_first_absent pat n :
  no_at n = true -> remove_first (String "@" pat) n = n.
Proof.
  induction n as [|c n IH]; intros Hn; [reflexivity|].
  cbn [remove_first]. rewrite prefix_at_no_at by assumption.
  f_equal. apply IH. cbn [no_at] in Hn. now apply andb_true_iff in Hn as [_ Hn].
Qed.

Lemma prefix_same p : String.prefix p p = true.
Proof.
  induction p as [|c p IH]; [reflexivity|]. cbn [String.prefix].
  destruct (Ascii.ascii_dec c c); [exact IH|congruence].
Qed.

Lemma drop_chars_all p : drop_chars (String.length p) p = "".
Proof. induction p as [|c p IH]; [reflexivity|exact IH]. Qed.

Lemma remove_first_suffix pat n :
  no_at n = true -> remove_first (String "@" pat) (n +:+ String "@" pat) = n.
Proof.
  induction n as [|c n IH]; intros Hn.
  - change ("" +:+ String "@" pat) with (String "@" pat).
    cbn [remove_first]. rewrite prefix_same. apply drop_chars_all.
  - change (String c n +:+ String "@" pat) with (String c (n +:+ String "@" pat)).
    cbn [remove_first].
    assert (Hp : String.prefix (String "@" pat) (String c (n +:+ String "@" pat)) = false).
    { cbn [no_at] in Hn. apply andb_true_iff in Hn as [Hc _].
      apply negb_true_iff, Ascii.eqb_neq in Hc. cbn [String.prefix].
      destruct (Ascii.ascii_dec "@" c); [congruence|reflexivity]. }
    rewrite Hp. f_equal. apply IH.
    cbn [no_at] in Hn. now apply andb_true_iff in Hn as [_ Hn].
Qed.

(** X9.  The address the startup notification goes to is recognised when
    it writes back.  For an owner number that is not empty and holds no at
    sign, the owner's JID is classified neither as a group nor as a
    channel, and the number the listener extracts from a direct message of
    that JID (no senderPn in the key) is the owner number, which is what
    the owner flag compares with. *)
Theorem owner_jid_is_recognised k :
  OWNER_NUMBER cfg <> "" ->
  no_at (OWNER_NUMBER cfg) = true ->
  senderPn k = None ->
  endsWith (owner_jid cfg) "@g.us" = false
  /\ endsWith (owner_jid cfg) "@newsletter" = false
  /\ sender_number false k (owner_jid cfg) = OWNER_NUMBER cfg
  /\ String.eqb (sender_number false k (owner_jid cfg)) (OWNER_NUMBER cfg) = true.
Proof.
  intros Hne Hat Hpn.
  assert (Hnum : sender_number false k (owner_jid cfg) = OWNER_NUMBER cfg).
  { unfold sender_number, owner_jid. rewrite Hpn. cbn [or_else option_map].
    rewrite remove_first_suffix, remove_first_absent by assumption.
    unfold or_default. destruct (String.eqb (OWNER_NUMBER cfg) "") eqn:He;
      [|reflexivity].
    apply String.eqb_eq in He. contradiction. }
  unfold owner_jid in *.
  rewrite !endsWith_past by (simpl; lia).
  repeat split; try reflexivity; try exact Hnum.
  rewrite Hnum. apply String.eqb_refl.
Qed.

(** ** A message without a chat *)

(** X10.  A message with a content, not from the bot, whose key has no
    remoteJid makes the listener throw before it logs or sends anything.
    When only passed-over messages precede it in a notify batch, the step
    adds the TypeError to the log of unhandled rejections and nothing else:
    the messages after it in the batch are never handled. *)
Theorem message_without_chat_ends_batch fuel h before msg after content s :
  is_Some (sockets s !! h) ->
  Forall (fun m => skipped m = true) before ->
  message msg = Some content ->
  fromMe (key msg) = false ->
  remoteJid (key msg) = None ->
  step cfg env fuel (Emit h (MessagesUpserted "notify" (before ++ msg :: after))) s
  = emit (EvError (LUncaught TypeError)) s.
Proof.
  intros [a Ha] Hbefore Hmsg Hme Hfrom. simpl. rewrite Ha.
  unfold settle, on_messages_upsert. simpl.
  assert (H : for_each_message cfg env (before ++ msg :: after) s = (Throw TypeError, s)).
  { induction Hbefore as [|m rest Hm _ IH]; simpl; unfold bind.
    - unfold on_message. now rewrite Hmsg, Hme, Hfrom.
    - now rewrite on_message_skipped. }
  now rewrite H.
Qed.

(** ** A local session the library rejects *)


(** ** What touches the session directory *)

Lemma same_file_outbound f op : keeps (same_file f) (outbound env op).
Proof.
  intros s. unfold outbound, bind, gets, modify, throw, ret, same_file, file_at. simpl.
  destruct (sock s) as [h|]; [|reflexivity]. simpl.
  now destruct (outbound_rejects env (op h)).
Qed.

Lemma same_file_on_message f msg : keeps (same_file f) (on_message cfg env msg).
Proof.
  unfold on_message.
  destruct (message msg) as [content|]; [|apply keeps_ret; typeclasses eauto].
  destruct (fromMe (key msg)); [apply keeps_ret; typeclasses eauto|].
  destruct (remoteJid (key msg)) as [from|]; [|apply keeps_throw; typeclasses eauto].
  unfold console_log, sock_readMessages, sock_sendPresenceUpdate.
  apply keeps_bind; [typeclasses eauto|apply same_file_emit|intros _].
  apply keeps_bind; [typeclasses eauto| |intros _].
  { apply keeps_when; [typeclasses eauto|apply same_file_outbound]. }
  apply keeps_bind; [typeclasses eauto| |intros _].
  { apply keeps_when; [typeclasses eauto|apply same_file_outbound]. }
  destruct (negb _); [apply keeps_ret; typeclasses eauto|].
  unfold dispatch, sock_sendMessage.
  destruct (String.eqb _ "ping"); [apply same_file_outbound|].
  destruct (String.eqb _ "alive"); [apply same_file_outbound|].
  apply keeps_ret. typeclasses eauto.
Qed.

Lemma same_file_on_messages_upsert f type messages :
  keeps (same_file f) (on_messages_upsert cfg env type messages).
Proof.
  unfold on_messages_upsert. destruct (negb _); [apply keeps_ret; typeclasses eauto|].
  induction messages as [|msg rest IH]; simpl; [apply keeps_ret; typeclasses eauto|].
  apply keeps_bind; [typeclasses eauto|apply same_file_on_message|intros _; exact IH].
Qed.

Lemma same_file_update f update :
  is_logout update = false ->
  keeps (same_file f) (on_connection_update cfg env update).
Proof.
  intros Hout s. destruct (is_close (connection update)) eqn:Hclose.
  - rewrite on_close_exact by assumption. now rewrite Hout.
  - unfold on_connection_update. rewrite Hclose.
    revert s. apply keeps_bind;
      [typeclasses eauto| |intros _; apply keeps_ret; typeclasses eauto].
    apply keeps_when; [typeclasses eauto|]. unfold console_log.
    apply keeps_bind; [typeclasses eauto|apply same_file_emit|intros _].
    apply keeps_bind; [typeclasses eauto|apply keeps_gets; typeclasses eauto|intros first].
    apply keeps_when; [typeclasses eauto|].
    apply keeps_bind; [typeclasses eauto|intros s; exact eq_refl|intros _].
    apply same_file_outbound.
Qed.

Lemma settle_same_file f (m : M unit) s :
  keeps (same_file f) m -> file_at f (settle m s) = file_at f s.
Proof.
  intros Hm. unfold settle. specialize (Hm s). unfold same_file in Hm.
  destruct (m s) as [[a|e|] s']; simpl in *; assumption.
Qed.

(** X12.  The session directory is touched by three kinds of steps only:
    a logged-out close, a credentials update and a timer that fires.  An
    open, a close with any other cause, any other connection update and any
    message batch, whatever it holds and whatever the library rejects,
    leave every file as it was. *)
Theorem files_untouched_by_other_steps fuel st s f :
  touches_files st = false ->
  file_at f (step cfg env fuel st s) = file_at f s.
Proof.
  intros Htouch. destruct st as [h [update|content|type messages]|i];
    try discriminate; simpl in *;
    (destruct (sockets s !! h); [|reflexivity]).
  - apply settle_same_file. now apply same_file_update.
  - apply settle_same_file, same_file_on_messages_upsert.
Qed.

End Properties.

(** * Instances

    The theorems above at concrete configurations, worlds and states, and
    the inputs on which three sentences of the specification fail. *)

(** The scenario of the specification: the manager answers 500 twice, then
    hands out the bundle; two waits, three requests. *)
Lemma fetch_loop_twice_500_then_bundle :
  2 <= 5
  /\ misses (Sample.world Sample.late_manager) (requests (initial None)) 2
  /\ (truthy (answer (manager (Sample.world Sample.late_manager)
                        (requests (initial None) + 2))) = true \/ 2 = 5)
  /\ (fetch_until_truthy Sample.cfg (Sample.world Sample.late_manager) 5 (initial None)
      = (if truthy (answer (manager (Sample.world Sample.late_manager)
                              (requests (initial None) + 2)))
         then Ret (answer (manager (Sample.world Sample.late_manager)
                             (requests (initial None) + 2)))
         else Pending,
         advance 3 (attempts Sample.cfg (Sample.world Sample.late_manager)
                      (requests (initial None)) 2) (initial None))
      /\ count (is_sleep (SESSION_RETRY_INTERVAL Sample.cfg))
           (attempts Sample.cfg (Sample.world Sample.late_manager)
              (requests (initial None)) 2) = 2
      /\ count is_get
           (attempts Sample.cfg (Sample.world Sample.late_manager)
              (requests (initial None)) 2) = 3).
Proof.
  assert (H1 : 2 <= 5) by lia.
  assert (H2 : misses (Sample.world Sample.late_manager) (requests (initial None)) 2).
  { intros i Hi. destruct i as [|[|i]]; [reflexivity|reflexivity|lia]. }
  assert (H3 : truthy (answer (manager (Sample.world Sample.late_manager)
                                 (requests (initial None) + 2))) = true \/ 2 = 5)
    by (left; reflexivity).
  exact (conj H1 (conj H2 (conj H3
    (fetch_loop_ends_on_truthy_answer Sample.cfg (Sample.world Sample.late_manager)
       5 (initial None) 2 H1 H2 H3)))).
Defined.

(** The loop ends on an empty file set: the first answer is an object
    without entries, and [fetch_until_truthy] returns it at once. *)
Lemma fetch_loop_ends_on_empty_file_set :
  (fetch_until_truthy Sample.cfg (Sample.world Sample.empty_manager) 0 (initial None)).1
  = Ret (FObj [])
  /\ Object_entries (FObj []) = Some []
  /\ requests
       (fetch_until_truthy Sample.cfg (Sample.world Sample.empty_manager) 0
          (initial None)).2 = 1.
Proof. repeat split. Qed.

(** A logged-out close on the running process. *)
Lemma logged_out_on_running_process :
  is_Some (sockets Sample.running !! 0)
  /\ is_logout (Sample.closed 401) = true
  /\ dir (step Sample.cfg (Sample.world Sample.ready_manager) 0
            (Emit 0 (ConnectionUpdated (Sample.closed 401))) Sample.running) = None
  /\ isFirstConnect (step Sample.cfg (Sample.world Sample.ready_manager) 0
                       (Emit 0 (ConnectionUpdated (Sample.closed 401))) Sample.running)
     = true
  /\ timers (step Sample.cfg (Sample.world Sample.ready_manager) 0
               (Emit 0 (ConnectionUpdated (Sample.closed 401))) Sample.running)
     = timers Sample.running ++ [RECONNECT_INTERVAL Sample.cfg].
Proof.
  assert (H1 : is_Some (sockets Sample.running !! 0)) by (eexists; reflexivity).
  assert (H2 : is_logout (Sample.closed 401) = true) by reflexivity.
  destruct (logged_out_wipes_and_restarts Sample.cfg (Sample.world Sample.ready_manager)
              0 0 (Sample.closed 401) Sample.running H1 H2)
    as (Hdir & Hfirst & Htimers & _).
  exact (conj H1 (conj H2 (conj Hdir (conj Hfirst Htimers)))).
Defined.

(** The second of three files is refused: the third is never attempted. *)
Lemma save_with_second_file_refused :
  directory_ready (Sample.world_denying Sample.ready_manager {["pre-key-1.json"]})
    (initial None) = true
  /\ accepted (Sample.world_denying Sample.ready_manager {["pre-key-1.json"]})
       [("creds.json", "{}")]
  /\ ("pre-key-1.json"
      ∈ denied (Sample.world_denying Sample.ready_manager {["pre-key-1.json"]}))
  /\ saveSessionLocally Sample.cfg
       (Sample.world_denying Sample.ready_manager {["pre-key-1.json"]})
       (FObj ([("creds.json", "{}")] ++ [("pre-key-1.json", "k1"); ("app-state.json", "a")]))
       (initial None)
     = (Ret tt,
        put (Some (store_all [("creds.json", "{}")] (default ∅ (dir (initial None)))))
          (opening (initial None)
           ++ map write_event ([("creds.json", "{}")]
                               ++ take 1 [("pre-key-1.json", "k1"); ("app-state.json", "a")])
           ++ [EvError (LSaveFailed (FsError "pre-key-1.json"))])
          (initial None)).
Proof.
  assert (H1 : directory_ready
                 (Sample.world_denying Sample.ready_manager {["pre-key-1.json"]})
                 (initial None) = true) by reflexivity.
  assert (H2 : accepted (Sample.world_denying Sample.ready_manager {["pre-key-1.json"]})
                 [("creds.json", "{}")]).
  { constructor; [|constructor]. simpl. intros H. apply elem_of_singleton in H. discriminate. }
  assert (H3 : "pre-key-1.json"
               ∈ denied (Sample.world_denying Sample.ready_manager {["pre-key-1.json"]})).
  { simpl. apply elem_of_singleton. reflexivity. }
  destruct (save_stops_at_first_refusal Sample.cfg
              (Sample.world_denying Sample.ready_manager {["pre-key-1.json"]})
              [("creds.json", "{}")]
              [("pre-key-1.json", "k1"); ("app-state.json", "a")]
              (initial None) H1 H2 H3) as [Hsave _].
  exact (conj H1 (conj H2 (conj H3 Hsave))).
Defined.

(** The first of two files is refused: the second, which the specification
    wants attempted all the same, is not, and is not in the directory. *)
Lemma save_gives_up_after_first_refusal :
  trace (saveSessionLocally Sample.cfg
           (Sample.world_denying Sample.ready_manager {["creds.json"]})
           (FObj Sample.bundle) (initial None)).2
  = [EvMkdir; EvWrite "creds.json" "{}"; EvError (LSaveFailed (FsError "creds.json"))]
  /\ (EvWrite "pre-key-1.json" "k1"
      ∉ trace (saveSessionLocally Sample.cfg
                 (Sample.world_denying Sample.ready_manager {["creds.json"]})
                 (FObj Sample.bundle) (initial None)).2)
  /\ dir (saveSessionLocally Sample.cfg
            (Sample.world_denying Sample.ready_manager {["creds.json"]})
            (FObj Sample.bundle) (initial None)).2
     = Some ∅.
Proof.
  assert (Htrace : trace (saveSessionLocally Sample.cfg
           (Sample.world_denying Sample.ready_manager {["creds.json"]})
           (FObj Sample.bundle) (initial None)).2
     = [EvMkdir; EvWrite "creds.json" "{}"; EvError (LSaveFailed (FsError "creds.json"))])
    by (vm_compute; reflexivity).
  split; [exact Htrace|]. split.
  - rewrite Htrace. intros Hin.
    repeat (apply elem_of_cons in Hin as [Hin|Hin]; [discriminate|]).
    inversion Hin.
  - vm_compute. reflexivity.
Qed.

(** Open, close, restart, open again: one notification. *)
Lemma one_notice_while_reconnecting :
  linked Sample.started
  /\ within_epoch Sample.reconnecting
  /\ notices (run Sample.cfg (Sample.world Sample.ready_manager) 0
                Sample.reconnecting Sample.started)
     + owed (run Sample.cfg (Sample.world Sample.ready_manager) 0
               Sample.reconnecting Sample.started)
     = notices Sample.started + owed Sample.started.
Proof.
  assert (H1 : linked Sample.started) by reflexivity.
  assert (H2 : within_epoch Sample.reconnecting) by (repeat constructor).
  destruct (startup_notice_once_per_epoch Sample.cfg (Sample.world Sample.ready_manager)
              0 Sample.reconnecting Sample.started H1 H2) as [Hsum _].
  exact (conj H1 (conj H2 Hsum)).
Defined.

(** A restart-required close on the running process. *)
Lemma restart_required_on_running_process :
  (3000 < RECONNECT_INTERVAL Sample.cfg)%Z
  /\ is_Some (sockets Sample.running !! 0)
  /\ is_close (connection (Sample.closed 515)) = true
  /\ code_is (statusCode (Sample.closed 515)) DisconnectReason.restartRequired = true
  /\ dir (step Sample.cfg (Sample.world Sample.ready_manager) 0
            (Emit 0 (ConnectionUpdated (Sample.closed 515))) Sample.running)
     = dir Sample.running
  /\ timers (step Sample.cfg (Sample.world Sample.ready_manager) 0
               (Emit 0 (ConnectionUpdated (Sample.closed 515))) Sample.running)
     = timers Sample.running ++ [3000%Z].
Proof.
  assert (H0 : (3000 < RECONNECT_INTERVAL Sample.cfg)%Z) by reflexivity.
  assert (H1 : is_Some (sockets Sample.running !! 0)) by (eexists; reflexivity).
  assert (H2 : is_close (connection (Sample.closed 515)) = true) by reflexivity.
  assert (H3 : code_is (statusCode (Sample.closed 515)) DisconnectReason.restartRequired
               = true) by reflexivity.
  destruct (restart_required_reopens_soon Sample.cfg (Sample.world Sample.ready_manager)
              0 0 (Sample.closed 515) Sample.running H0 H1 H2 H3)
    as (Hdir & _ & _ & _ & _ & Htimers & _).
  exact (conj H0 (conj H1 (conj H2 (conj H3 (conj Hdir Htimers))))).
Defined.

(** The running process has its session on disk: no request. *)
Lemma running_process_loads_locally :
  (hasLocalSession Sample.running).1 = Ret true
  /\ requests (getAuthState Sample.cfg (Sample.world Sample.late_manager) 0
                 Sample.running).2
     = requests Sample.running
  /\ count is_get (trace (getAuthState Sample.cfg (Sample.world Sample.late_manager) 0
                            Sample.running).2)
     = count is_get (trace Sample.running).
Proof.
  assert (H1 : (hasLocalSession Sample.running).1 = Ret true) by reflexivity.
  destruct (local_session_skips_manager Sample.cfg (Sample.world Sample.late_manager)
              0 Sample.running H1) as (_ & Hreq & Hget & _).
  exact (conj H1 (conj Hreq Hget)).
Defined.

(** A second socket is made; the first one's close still counts. *)
Lemma superseded_socket_is_not_ignored :
  sock Sample.reopened = Some 1
  /\ timers Sample.reopened = []
  /\ timers (step Sample.cfg (Sample.world Sample.ready_manager) 0
               (Emit 0 (ConnectionUpdated (Sample.closed 428))) Sample.reopened)
     = [5000%Z]
  /\ step Sample.cfg (Sample.world Sample.ready_manager) 0
       (Emit 0 (ConnectionUpdated (Sample.closed 428))) Sample.reopened
     <> Sample.reopened.
Proof.
  assert (Htimers : timers (step Sample.cfg (Sample.world Sample.ready_manager) 0
               (Emit 0 (ConnectionUpdated (Sample.closed 428))) Sample.reopened)
     = [5000%Z]) by (vm_compute; reflexivity).
  assert (Hnone : timers Sample.reopened = []) by (vm_compute; reflexivity).
  split; [vm_compute; reflexivity|]. split; [exact Hnone|]. split; [exact Htimers|].
  intros Heq. rewrite Heq, Hnone in Htimers. discriminate.
Qed.

(** The same state, reached by the process: [sock] is the second socket. *)
Lemma reopened_process_is_linked :
  linked (run Sample.cfg (Sample.world Sample.ready_manager) 0
            [Emit 0 (ConnectionUpdated (Sample.closed 428)); Fire 0]
            (main Sample.cfg (Sample.world Sample.ready_manager) 0 (initial None)))
  /\ (is_Some (sockets Sample.reopened !! 0) ->
      is_close (connection (Sample.closed 428)) = true ->
      timers (step Sample.cfg (Sample.world Sample.ready_manager) 0
                (Emit 0 (ConnectionUpdated (Sample.closed 428))) Sample.reopened)
      = timers Sample.reopened ++ [restart_delay Sample.cfg (Sample.closed 428)]).
Proof.
  destruct (sock_is_latest_and_old_sockets_still_heard Sample.cfg
              (Sample.world Sample.ready_manager)) as (Hlinked & _ & _ & Hclose).
  exact (conj (Hlinked 0 None
                 [Emit 0 (ConnectionUpdated (Sample.closed 428)); Fire 0])
              (Hclose 0 0 (Sample.closed 428) Sample.reopened)).
Defined.


(** The bundle arrives at the third request and the library rejects it. *)
Lemma rejected_bundle_ends_startBot :
  (hasLocalSession (initial None)).1 = Ret false
  /\ 2 <= 5
  /\ misses (Sample.world_corrupt Sample.late_manager) (requests (initial None)) 2
  /\ truthy (answer (manager (Sample.world_corrupt Sample.late_manager)
                       (requests (initial None) + 2))) = true
  /\ loadable (Sample.world_corrupt Sample.late_manager)
       (default ∅ (dir (saved Sample.cfg (Sample.world_corrupt Sample.late_manager)
                          (initial None) 2))) = false
  /\ startBot Sample.cfg (Sample.world_corrupt Sample.late_manager) 5 (initial None)
     = (Throw CorruptState,
        emit EvLoad (saved Sample.cfg (Sample.world_corrupt Sample.late_manager)
                       (initial None) 2)).
Proof.
  assert (H1 : (hasLocalSession (initial None)).1 = Ret false) by reflexivity.
  assert (H2 : 2 <= 5) by lia.
  assert (H3 : misses (Sample.world_corrupt Sample.late_manager)
                 (requests (initial None)) 2).
  { intros i Hi. destruct i as [|[|i]]; [reflexivity|reflexivity|lia]. }
  assert (H4 : truthy (answer (manager (Sample.world_corrupt Sample.late_manager)
                                 (requests (initial None) + 2))) = true) by reflexivity.
  assert (H5 : loadable (Sample.world_corrupt Sample.late_manager)
                 (default ∅ (dir (saved Sample.cfg
                                    (Sample.world_corrupt Sample.late_manager)
                                    (initial None) 2))) = false) by reflexivity.
  destruct (corrupt_bundle_alone_propagates Sample.cfg
              (Sample.world_corrupt Sample.late_manager)) as [Hthrow _].
  destruct (Hthrow 5 (initial None) 2 H1 H2 H3 H4 H5) as (_ & Hstart & _).
  exact (conj H1 (conj H2 (conj H3 (conj H4 (conj H5 Hstart))))).
Defined.

(** A batch of another type, and the ping among messages passed over. *)
Lemma appended_batch_is_ignored :
  ("append" <> "notify" \/ Forall (fun msg => skipped msg = true) [Sample.ping])
  /\ on_messages_upsert Sample.cfg (Sample.world Sample.ready_manager) "append"
       [Sample.ping] Sample.running
     = (Ret tt, Sample.running)
  /\ on_messages_upsert Sample.cfg (Sample.world Sample.ready_manager) "notify"
       [Sample.stub; Sample.ping; Sample.echo] Sample.running
     = on_messages_upsert Sample.cfg (Sample.world Sample.ready_manager) "notify"
         (filter (fun msg => skipped msg = false) [Sample.stub; Sample.ping; Sample.echo])
         Sample.running.
Proof.
  assert (H1 : "append" <> "notify"
               \/ Forall (fun msg => skipped msg = true) [Sample.ping])
    by (left; discriminate).
  destruct (ignored_messages_do_nothing Sample.cfg (Sample.world Sample.ready_manager)
              "append" [Sample.ping] Sample.running H1) as (Hnone & _ & Hfilter).
  exact (conj H1 (conj Hnone
    (Hfilter "notify" [Sample.stub; Sample.ping; Sample.echo] Sample.running))).
Defined.

(** ** The scenarios of the specification, run *)

Example two_failures_then_bundle :
  (getAuthState Sample.cfg (Sample.world Sample.late_manager) 5 (initial None)).1
  = Ret {| creds := Some "{}" |}
  /\ requests (getAuthState Sample.cfg (Sample.world Sample.late_manager) 5
                 (initial None)).2 = 3
  /\ count (is_sleep 10000)
       (trace (getAuthState Sample.cfg (Sample.world Sample.late_manager) 5
                 (initial None)).2) = 2.
Proof. vm_compute. repeat split. Qed.

Example reconnecting_sends_one_notice :
  notices (run Sample.cfg (Sample.world Sample.ready_manager) 0
             Sample.reconnecting Sample.started) = 1.
Proof. vm_compute. reflexivity. Qed.

Example relogin_sends_a_second_notice :
  notices (run Sample.cfg (Sample.world Sample.ready_manager) 0
             Sample.relogin Sample.started) = 2.
Proof. vm_compute. reflexivity. Qed.

Example picture_is_read_not_dispatched :
  trace (step Sample.cfg (Sample.world Sample.ready_manager) 0
           (Emit 0 (MessagesUpserted "notify" [Sample.picture])) Sample.running)
  = [EvLog (LIncoming DM "Lois" "15550123" "[media/no text]"
              "15550123@s.whatsapp.net" false);
     EvReadMessages 0 (key Sample.picture)].
Proof. vm_compute. reflexivity. Qed.

Example ping_on_old_socket_answered_on_new :
  trace (step Sample.cfg (Sample.world Sample.ready_manager) 0
           (Emit 0 (MessagesUpserted "notify" [Sample.ping]))
           (forget_trace Sample.reopened))
  = [EvLog (LIncoming DM "Lois" "15550123" ".ping" "15550123@s.whatsapp.net" false);
     EvReadMessages 1 (key Sample.ping);
     EvPresence 1 "15550123@s.whatsapp.net";
     EvSendMessage 1 "15550123@s.whatsapp.net" Pong (Some (key Sample.ping))].
Proof. vm_compute. reflexivity. Qed.

(** ** Further instances *)

(** A dropped connection on the running process, and its restart. *)
Lemma running_process_reopens_from_disk :
  is_Some (sockets Sample.running !! 0)
  /\ is_close (connection (Sample.closed 428)) = true
  /\ is_logout (Sample.closed 428) = false
  /\ (hasLocalSession Sample.running).1 = Ret true
  /\ loadable (Sample.world Sample.late_manager) (default ∅ (dir Sample.running)) = true
  /\ requests (run Sample.cfg (Sample.world Sample.late_manager) 0
                 (close_then_restart 0 (Sample.closed 428) Sample.running)
                 Sample.running)
     = requests Sample.running
  /\ sock (run Sample.cfg (Sample.world Sample.late_manager) 0
             (close_then_restart 0 (Sample.closed 428) Sample.running)
             Sample.running)
     = Some (length (sockets Sample.running)).
Proof.
  assert (H1 : is_Some (sockets Sample.running !! 0)) by (eexists; reflexivity).
  assert (H2 : is_close (connection (Sample.closed 428)) = true) by reflexivity.
  assert (H3 : is_logout (Sample.closed 428) = false) by reflexivity.
  assert (H4 : (hasLocalSession Sample.running).1 = Ret true) by reflexivity.
  assert (H5 : loadable (Sample.world Sample.late_manager)
                 (default ∅ (dir Sample.running)) = true) by reflexivity.
  destruct (reopen_loads_stored_session Sample.cfg (Sample.world Sample.late_manager)
              0 0 (Sample.closed 428) Sample.running H1 H2 H3 H4 H5)
    as (Hreq & _ & _ & _ & Hsock & _).
  exact (conj H1 (conj H2 (conj H3 (conj H4 (conj H5 (conj Hreq Hsock)))))).
Defined.




(** Two opens while the library rejects everything. *)
Lemma offline_notice_attempted_once :
  sock Sample.started = Some 0
  /\ is_Some (sockets Sample.started !! 0)
  /\ is_open (connection Sample.opened) = true
  /\ isFirstConnect Sample.started = true
  /\ outbound_rejects (Sample.world_offline Sample.ready_manager)
       (EvSendMessage 0 (owner_jid Sample.cfg) ConnectedNotice None) = true
  /\ step Sample.cfg (Sample.world_offline Sample.ready_manager) 0
       (Emit 0 (ConnectionUpdated Sample.opened))
       (step Sample.cfg (Sample.world_offline Sample.ready_manager) 0
          (Emit 0 (ConnectionUpdated Sample.opened)) Sample.started)
     = advance 0 [EvLog LConnected]
         (step Sample.cfg (Sample.world_offline Sample.ready_manager) 0
            (Emit 0 (ConnectionUpdated Sample.opened)) Sample.started).
Proof.
  assert (H1 : sock Sample.started = Some 0) by reflexivity.
  assert (H2 : is_Some (sockets Sample.started !! 0)) by (eexists; reflexivity).
  assert (H3 : is_open (connection Sample.opened) = true) by reflexivity.
  assert (H4 : isFirstConnect Sample.started = true) by reflexivity.
  assert (H5 : outbound_rejects (Sample.world_offline Sample.ready_manager)
                 (EvSendMessage 0 (owner_jid Sample.cfg) ConnectedNotice None) = true)
    by reflexivity.
  destruct (rejected_notice_is_not_sent_again Sample.cfg
              (Sample.world_offline Sample.ready_manager) 0 0 0
              Sample.opened Sample.opened Sample.started 0 H1 H2 H2 H3 H3 H4 H5)
    as [_ Hnext].
  exact (conj H1 (conj H2 (conj H3 (conj H4 (conj H5 Hnext))))).
Defined.


(** The sample owner writes to the bot. *)
Lemma sample_owner_is_recognised :
  OWNER_NUMBER Sample.cfg <> ""
  /\ no_at (OWNER_NUMBER Sample.cfg) = true
  /\ senderPn (key Sample.ping) = None
  /\ sender_number false (key Sample.ping) (owner_jid Sample.cfg)
     = OWNER_NUMBER Sample.cfg.
Proof.
  assert (H1 : OWNER_NUMBER Sample.cfg <> "") by discriminate.
  assert (H2 : no_at (OWNER_NUMBER Sample.cfg) = true) by reflexivity.
  assert (H3 : senderPn (key Sample.ping) = None) by reflexivity.
  destruct (owner_jid_is_recognised Sample.cfg (key Sample.ping) H1 H2 H3)
    as (_ & _ & Hnum & _).
  exact (conj H1 (conj H2 (conj H3 Hnum))).
Defined.

(** A ping behind a message without a chat is never answered. *)
Lemma ping_behind_lost_message_is_dropped :
  is_Some (sockets Sample.running !! 0)
  /\ Forall (fun m => skipped m = true) [Sample.stub]
  /\ step Sample.cfg (Sample.world Sample.ready_manager) 0
       (Emit 0 (MessagesUpserted "notify"
                  ([Sample.stub] ++ Sample.lost :: [Sample.ping])))
       Sample.running
     = emit (EvError (LUncaught TypeError)) Sample.running.
Proof.
  assert (H1 : is_Some (sockets Sample.running !! 0)) by (eexists; reflexivity).
  assert (H2 : Forall (fun m => skipped m = true) [Sample.stub])
    by (repeat constructor).
  exact (conj H1 (conj H2
    (message_without_chat_ends_batch Sample.cfg (Sample.world Sample.ready_manager)
       0 0 [Sample.stub] Sample.lost [Sample.ping] _ Sample.running
       H1 H2 eq_refl eq_refl eq_refl))).
Defined.


(** A ping batch leaves creds.json alone. *)
Lemma ping_leaves_creds_alone :
  touches_files (Emit 0 (MessagesUpserted "notify" [Sample.ping])) = false
  /\ file_at "creds.json"
       (step Sample.cfg (Sample.world Sample.ready_manager) 0
          (Emit 0 (MessagesUpserted "notify" [Sample.ping])) Sample.running)
     = file_at "creds.json" Sample.running.
Proof.
  assert (H1 : touches_files (Emit 0 (MessagesUpserted "notify" [Sample.ping])) = false)
    by reflexivity.
  exact (conj H1
    (files_untouched_by_other_steps Sample.cfg (Sample.world Sample.ready_manager) 0
       (Emit 0 (MessagesUpserted "notify" [Sample.ping])) Sample.running
       "creds.json" H1)).
Defined.

Example shouted_ping_is_answered :
  trace (step Sample.cfg (Sample.world Sample.ready_manager) 0
           (Emit 0 (MessagesUpserted "notify" [Sample.shout])) Sample.running)
  = [EvLog (LIncoming DM "Lois" "15550123" ". PiNg now" "15550123@s.whatsapp.net" false);
     EvReadMessages 0 (key Sample.shout);
     EvPresence 0 "15550123@s.whatsapp.net";
     EvSendMessage 0 "15550123@s.whatsapp.net" Pong (Some (key Sample.shout))].
Proof. vm_compute. reflexivity. Qed.
